(** * Sigust front end: request construction and view state

    A shallow embedding of the Svelte/TypeScript front end of Sigust
    (a Tauri key-management and signing tool).  Each asynchronous event
    handler of a view is a function from the view's state, and from the
    answers the outside world gives at its [await] points, to the state
    the handler leaves behind together with the back-end commands it
    issued, in order.  A handler runs without interference: while one is
    pending its view disables the controls that write the state it
    reads ([loading], [signing], [verifying]), and the argument object
    of [invoke] is built before the call is awaited. *)

From Stdlib Require Import NArith ZArith Ascii String.
From stdpp Require Import base option list strings.

Local Open Scope string_scope.
Local Open Scope list_scope.

(** ** JavaScript values *)

(** A JavaScript string is a sequence of UTF-16 code units. *)
Definition jsstring : Type := list N.

(** A source literal made of ASCII characters only. *)
Definition lit (s : string) : jsstring :=
  (λ a, N_of_ascii a) <$> list_ascii_of_string s.

(** [!s] is [true] exactly for the empty string; [!x] for
    [x : string | null] also for [null]. *)
Definition truthy (s : jsstring) : bool :=
  match s with [] => false | _ :: _ => true end.

Definition truthy_opt (x : option jsstring) : bool :=
  match x with Some s => truthy s | None => false end.

(** [WhiteSpace] and [LineTerminator] code points of ECMAScript, the
    ones [String.prototype.trim] strips. *)
Definition isWhiteSpace (c : N) : bool :=
  (bool_decide (c ∈ [0x0009; 0x000A; 0x000B; 0x000C; 0x000D; 0x0020; 0x00A0;
                     0x1680; 0x2028; 0x2029; 0x202F; 0x205F; 0x3000; 0xFEFF])
   || ((0x2000 <=? c) && (c <=? 0x200A)))%N.

Fixpoint trimStart (s : jsstring) : jsstring :=
  match s with
  | c :: s' => if isWhiteSpace c then trimStart s' else s
  | [] => []
  end.

Definition trimEnd (s : jsstring) : jsstring :=
  reverse (trimStart (reverse s)).

Definition trim (s : jsstring) : jsstring := trimEnd (trimStart s).

(** What a [catch (e)] clause receives, and the text the handlers make of
    it with [e instanceof Error ? e.message : String(e)]. *)
Inductive Thrown : Type :=
| ThrownError (message : jsstring)
| ThrownValue (asString : jsstring).

Definition describe (e : Thrown) : jsstring :=
  match e with
  | ThrownError m => m
  | ThrownValue s => s
  end.

(** How an awaited promise settles. *)
Inductive Settled (A : Type) : Type :=
| Resolved (a : A)
| Rejected (e : Thrown).
Arguments Resolved {A} a.
Arguments Rejected {A} e.

(** The argument object handed to [invoke]: property names in source
    order, each with [null], a string or a nested object. *)
#[warnings="-register-all"]
Inductive JsValue : Type :=
| JsNull
| JsString (s : jsstring)
| JsObject (props : list (string * JsValue)).

(** A variable of type [string | null] used as a value, and inside a
    template literal. *)
Definition ofNullable (x : option jsstring) : JsValue :=
  match x with Some s => JsString s | None => JsNull end.

Definition interpolate (x : option jsstring) : jsstring :=
  match x with Some s => s | None => lit "null" end.

Record Invocation : Type := MkInvocation {
  command : string;
  payload : list (string * JsValue)
}.

(** Property read [o.k]. *)
Fixpoint prop (k : string) (o : list (string * JsValue)) : option JsValue :=
  match o with
  | [] => None
  | (k', v) :: o' => if bool_decide (k' = k) then Some v else prop k o'
  end.

Definition inputNames (i : Invocation) : list string := (payload i).*1.

(** ** src/lib/types.ts *)

Record KeyInfo : Type := MkKeyInfo {
  keyId : jsstring;
  name : jsstring;
  algorithm : jsstring;
  createdAt : jsstring
}.

Record KeyDetails : Type := MkKeyDetails {
  info : KeyInfo;
  publicKeyPem : jsstring
}.

Inductive SignatureAlgorithm : Type :=
| RSA_PKCS1_SHA256
| ECDSA_P256_SHA256
| Ed25519.

Global Instance SignatureAlgorithm_eq_dec : EqDecision SignatureAlgorithm.
Proof. solve_decision. Defined.

(** The string literal each variant of the union type stands for. *)
Definition algorithmLiteral (a : SignatureAlgorithm) : string :=
  match a with
  | RSA_PKCS1_SHA256 => "RSA-PKCS1-SHA256"
  | ECDSA_P256_SHA256 => "ECDSA-P256-SHA256"
  | Ed25519 => "Ed25519"
  end.

Inductive SignatureFormat : Type := detached.

Definition formatLiteral (f : SignatureFormat) : string :=
  match f with detached => "detached" end.

Record SigningOptions : Type := MkSigningOptions { format : SignatureFormat }.

Record VerificationResult : Type := MkVerificationResult {
  isValid : bool;
  errorMessage : option jsstring
}.

Record AlgorithmChoice : Type := MkAlgorithmChoice {
  value : SignatureAlgorithm;
  label : string
}.

Definition supportedAlgorithmsForGeneration : list AlgorithmChoice :=
  [ MkAlgorithmChoice RSA_PKCS1_SHA256 "RSA 2048 (PKCS#1 SHA-256)";
    MkAlgorithmChoice ECDSA_P256_SHA256 "ECDSA P-256 (SHA-256)";
    MkAlgorithmChoice Ed25519 "Ed25519" ].

(** Serialisation of the typed values into the argument object. *)
Definition ofAlgorithm (a : SignatureAlgorithm) : JsValue :=
  JsString (lit (algorithmLiteral a)).

Definition ofSigningOptions (o : SigningOptions) : JsValue :=
  JsObject [("format", JsString (lit (formatLiteral (format o))))].

(** ** src/lib/components/GenerateKey.svelte *)

Module GenerateKey.

Record State : Type := MkState {
  keyName : jsstring;
  selectedAlgorithm : SignatureAlgorithm;
  password : jsstring;
  confirmPassword : jsstring;
  loading : bool;
  error : option jsstring
}.

(** [supportedAlgorithmsForGeneration[0].value] *)
Definition firstOffered : SignatureAlgorithm :=
  match supportedAlgorithmsForGeneration with
  | c :: _ => value c
  | [] => RSA_PKCS1_SHA256
  end.

Definition init : State :=
  MkState [] firstOffered [] [] false None.

Definition set_error (e : option jsstring) (st : State) : State :=
  MkState (keyName st) (selectedAlgorithm st) (password st)
          (confirmPassword st) (loading st) e.

Definition set_loading (b : bool) (st : State) : State :=
  MkState (keyName st) (selectedAlgorithm st) (password st)
          (confirmPassword st) b (error st).

(** What one run of the handler leaves behind: the component state, the
    commands sent to the back end, and the calls of the [onGenerated]
    callback. *)
Record Run : Type := MkRun {
  final : State;
  issued : list Invocation;
  generated : list KeyDetails
}.

Definition request (st : State) : Invocation :=
  MkInvocation "generate_key_pair"
    [ ("name", JsString (trim (keyName st)));
      ("algStr", ofAlgorithm (selectedAlgorithm st));
      ("password", JsString (password st)) ].

(** [reply] is how the back end settles the [invoke]; it is only
    looked at when the handler gets as far as invoking. *)
Definition generateKey (st : State) (reply : Settled KeyDetails) : Run :=
  if negb (bool_decide (password st = confirmPassword st)) then
    MkRun (set_error (Some (lit "Passwords do not match.")) st) [] []
  else if negb (truthy (trim (keyName st))) then
    MkRun (set_error (Some (lit "Key name cannot be empty.")) st) [] []
  else if negb (truthy (password st)) then
    MkRun (set_error (Some (lit "Password cannot be empty.")) st) [] []
  else
    let st1 := set_error None (set_loading true st) in
    match reply with
    | Resolved newKeyDetails =>
        MkRun (set_loading false st1) [request st1] [newKeyDetails]
    | Rejected e =>
        let st2 :=
          set_error (Some (lit "Generation failed: " ++ describe e)) st1 in
        MkRun (set_loading false st2) [request st1] []
    end.

End GenerateKey.

(** ** SignView.svelte *)

Module SignView.

Record State : Type := MkState {
  keys : list KeyInfo;
  selectedKeyId : option jsstring;
  documentPath : option jsstring;
  password : jsstring;
  loadingKeys : bool;
  signing : bool;
  error : option jsstring;
  successMessage : option jsstring
}.

Definition init : State := MkState [] None None [] true false None None.

Definition set_keys (v : list KeyInfo) (st : State) : State :=
  MkState v (selectedKeyId st) (documentPath st) (password st)
          (loadingKeys st) (signing st) (error st) (successMessage st).
Definition set_selectedKeyId (v : option jsstring) (st : State) : State :=
  MkState (keys st) v (documentPath st) (password st)
          (loadingKeys st) (signing st) (error st) (successMessage st).
Definition set_documentPath (v : option jsstring) (st : State) : State :=
  MkState (keys st) (selectedKeyId st) v (password st)
          (loadingKeys st) (signing st) (error st) (successMessage st).
Definition set_password (v : jsstring) (st : State) : State :=
  MkState (keys st) (selectedKeyId st) (documentPath st) v
          (loadingKeys st) (signing st) (error st) (successMessage st).
Definition set_loadingKeys (v : bool) (st : State) : State :=
  MkState (keys st) (selectedKeyId st) (documentPath st) (password st)
          v (signing st) (error st) (successMessage st).
Definition set_signing (v : bool) (st : State) : State :=
  MkState (keys st) (selectedKeyId st) (documentPath st) (password st)
          (loadingKeys st) v (error st) (successMessage st).
Definition set_error (v : option jsstring) (st : State) : State :=
  MkState (keys st) (selectedKeyId st) (documentPath st) (password st)
          (loadingKeys st) (signing st) v (successMessage st).
Definition set_successMessage (v : option jsstring) (st : State) : State :=
  MkState (keys st) (selectedKeyId st) (documentPath st) (password st)
          (loadingKeys st) (signing st) (error st) v.

Record Run : Type := MkRun {
  final : State;
  issued : list Invocation
}.

(** The body of the view's [$effect]. *)
Definition effect (st : State) : State :=
  if negb (loadingKeys st) && bool_decide (0 < length (keys st))
     && bool_decide (selectedKeyId st = None)
  then
    match keys st with
    | first :: _ => set_selectedKeyId (Some (keyId first)) st
    | [] => st
    end
  else st.

Definition loadKeys (st : State) (reply : Settled (list KeyInfo)) : Run :=
  let st1 := set_error None (set_loadingKeys true st) in
  let st2 :=
    match reply with
    | Resolved ks =>
        let st' := set_keys ks st1 in
        match ks with
        | first :: _ =>
            if negb (truthy_opt (selectedKeyId st'))
            then set_selectedKeyId (Some (keyId first)) st'
            else st'
        | [] => st'
        end
    | Rejected e =>
        set_keys []
          (set_error (Some (lit "Failed to load keys: " ++ describe e)) st1)
    end in
  MkRun (set_loadingKeys false st2) [MkInvocation "list_keys" []].

(** [picked] is what the open dialog resolves to: a path, or [null]
    when the user cancels. *)
Definition selectDocument (st : State)
    (picked : Settled (option jsstring)) : State :=
  let st1 := set_successMessage None (set_error None st) in
  match picked with
  | Resolved selected =>
      set_documentPath
        (if truthy_opt selected then selected else None) st1
  | Rejected e =>
      set_error (Some (lit "Failed select doc: " ++ describe e)) st1
  end.

Definition request (st : State) (outputPath : option jsstring)
    (options : SigningOptions) : Invocation :=
  MkInvocation "sign_document"
    [ ("documentPath", ofNullable (documentPath st));
      ("keyId", ofNullable (selectedKeyId st));
      ("password", JsString (password st));
      ("outputPath", ofNullable outputPath);
      ("options", ofSigningOptions options) ].

(** [saved] is what the save dialog resolves to ([null] when the user
    cancels), [reply] how the back end settles [sign_document].  The
    request is built after the dialog, from the state the handler left
    before it. *)
Definition signDocument (st : State)
    (saved : Settled (option jsstring)) (reply : Settled unit) : Run :=
  if negb (truthy_opt (documentPath st))
     || negb (truthy_opt (selectedKeyId st)) then
    MkRun (set_error (Some (lit "Please select a document and a key.")) st) []
  else if negb (truthy (password st)) then
    MkRun (set_error (Some (lit "Please enter the key password.")) st) []
  else
    let st1 :=
      set_successMessage None (set_error None (set_signing true st)) in
    match saved with
    | Resolved outputPath =>
        if negb (truthy_opt outputPath) then
          MkRun (set_signing false (set_signing false st1)) []
        else
          let options := MkSigningOptions detached in
          let sent := request st1 outputPath options in
          match reply with
          | Resolved _ =>
              let st2 :=
                set_successMessage
                  (Some (lit "Document signed successfully! Signature saved to: "
                         ++ interpolate outputPath)) st1 in
              let st3 := set_password [] st2 in
              MkRun (set_signing false st3) [sent]
          | Rejected e =>
              let st2 :=
                set_error (Some (lit "Signing failed: " ++ describe e)) st1 in
              MkRun (set_signing false st2) [sent]
          end
    | Rejected e =>
        let st2 :=
          set_error (Some (lit "Signing failed: " ++ describe e)) st1 in
        MkRun (set_signing false st2) []
    end.

End SignView.

(** ** src/lib/components/VerifyView.svelte *)

Module VerifyView.

Record State : Type := MkState {
  keys : list KeyInfo;
  selectedKeyId : option jsstring;
  documentPath : option jsstring;
  signaturePath : option jsstring;
  loadingKeys : bool;
  verifying : bool;
  error : option jsstring;
  verificationResult : option VerificationResult
}.

Definition init : State := MkState [] None None None true false None None.

Definition set_keys (v : list KeyInfo) (st : State) : State :=
  MkState v (selectedKeyId st) (documentPath st) (signaturePath st)
          (loadingKeys st) (verifying st) (error st) (verificationResult st).
Definition set_selectedKeyId (v : option jsstring) (st : State) : State :=
  MkState (keys st) v (documentPath st) (signaturePath st)
          (loadingKeys st) (verifying st) (error st) (verificationResult st).
Definition set_documentPath (v : option jsstring) (st : State) : State :=
  MkState (keys st) (selectedKeyId st) v (signaturePath st)
          (loadingKeys st) (verifying st) (error st) (verificationResult st).
Definition set_signaturePath (v : option jsstring) (st : State) : State :=
  MkState (keys st) (selectedKeyId st) (documentPath st) v
          (loadingKeys st) (verifying st) (error st) (verificationResult st).
Definition set_loadingKeys (v : bool) (st : State) : State :=
  MkState (keys st) (selectedKeyId st) (documentPath st) (signaturePath st)
          v (verifying st) (error st) (verificationResult st).
Definition set_verifying (v : bool) (st : State) : State :=
  MkState (keys st) (selectedKeyId st) (documentPath st) (signaturePath st)
          (loadingKeys st) v (error st) (verificationResult st).
Definition set_error (v : option jsstring) (st : State) : State :=
  MkState (keys st) (selectedKeyId st) (documentPath st) (signaturePath st)
          (loadingKeys st) (verifying st) v (verificationResult st).
Definition set_verificationResult (v : option VerificationResult)
    (st : State) : State :=
  MkState (keys st) (selectedKeyId st) (documentPath st) (signaturePath st)
          (loadingKeys st) (verifying st) (error st) v.

Record Run : Type := MkRun {
  final : State;
  issued : list Invocation
}.

(** The body of the view's [$effect]: two [if] statements in a row. *)
Definition effect (st : State) : State :=
  let st1 :=
    if negb (loadingKeys st) && bool_decide (0 < length (keys st))
       && bool_decide (selectedKeyId st = None)
    then
      match keys st with
      | first :: _ => set_selectedKeyId (Some (keyId first)) st
      | [] => st
      end
    else st in
  if negb (loadingKeys st1) && bool_decide (length (keys st1) = 0)
  then set_selectedKeyId None st1
  else st1.

Definition loadKeys (st : State) (reply : Settled (list KeyInfo)) : Run :=
  let st1 := set_error None (set_loadingKeys true st) in
  let st2 :=
    match reply with
    | Resolved ks =>
        let st' := set_keys ks st1 in
        match ks with
        | first :: _ =>
            if negb (truthy_opt (selectedKeyId st'))
            then set_selectedKeyId (Some (keyId first)) st'
            else st'
        | [] => st'
        end
    | Rejected e =>
        set_keys []
          (set_error (Some (lit "Failed load keys: " ++ describe e)) st1)
    end in
  MkRun (set_loadingKeys false st2) [MkInvocation "list_keys" []].

Inductive FileKind : Type := document | signature.

Definition kindLiteral (type : FileKind) : string :=
  match type with document => "document" | signature => "signature" end.

Definition selectFile (st : State) (type : FileKind)
    (picked : Settled (option jsstring)) : State :=
  let st1 := set_verificationResult None (set_error None st) in
  match picked with
  | Resolved selected =>
      let chosen := if truthy_opt selected then selected else None in
      match type with
      | document => set_documentPath chosen st1
      | signature => set_signaturePath chosen st1
      end
  | Rejected e =>
      set_error
        (Some (lit "Failed select " ++ lit (kindLiteral type) ++ lit ": "
               ++ describe e)) st1
  end.

Definition request (st : State) : Invocation :=
  MkInvocation "verify_signature"
    [ ("documentPath", ofNullable (documentPath st));
      ("signaturePath", ofNullable (signaturePath st));
      ("keyId", ofNullable (selectedKeyId st)) ].

(** [reply] is how the back end settles [verify_signature]. *)
Definition verify (st : State) (reply : Settled VerificationResult) : Run :=
  if negb (truthy_opt (documentPath st))
     || negb (truthy_opt (signaturePath st))
     || negb (truthy_opt (selectedKeyId st)) then
    MkRun (set_verificationResult None
             (set_error
                (Some (lit "Please select the document, signature, and key."))
                st)) []
  else
    let st1 :=
      set_verificationResult None
        (set_error None (set_verifying true st)) in
    let sent := request st1 in
    match reply with
    | Resolved result =>
        MkRun (set_verifying false
                 (set_verificationResult (Some result) st1)) [sent]
    | Rejected e =>
        let st2 :=
          set_error
            (Some (lit "Verification process failed: " ++ describe e)) st1 in
        MkRun (set_verifying false (set_verificationResult None st2)) [sent]
    end.

End VerifyView.

(** ** src/lib/shared.ts *)

Module Shared.

(** A JavaScript number, as far as comparing it with an array length and
    using it as an array index can tell numbers apart: an integral
    value (with [-0] as [0]), a finite value strictly between [below]
    and [below + 1], [NaN], and the two infinities. *)
Inductive JsNumber : Type :=
| Integer (z : Z)
| Fraction (below : Z)
| NaN
| PosInfinity
| NegInfinity.

(** [n <= x] for an array length [n]. *)
Definition lengthAtMost (n : nat) (x : JsNumber) : bool :=
  match x with
  | Integer z => bool_decide (Z.of_nat n ≤ z)%Z
  | Fraction below => bool_decide (Z.of_nat n ≤ below)%Z
  | PosInfinity => true
  | NaN | NegInfinity => false
  end.

(** [keys[x]]: the element for an integral [x] within the array,
    [undefined] for every other number. *)
Definition element (keys : list KeyInfo) (x : JsNumber) : option KeyInfo :=
  match x with
  | Integer z => if bool_decide (0 ≤ z)%Z then keys !! Z.to_nat z else None
  | _ => None
  end.

(** The object a non-null [lastSelectedKey] is. *)
Record Selection : Type := MkSelection {
  index : JsNumber;
  info : KeyInfo
}.

(** What the binding holds: nothing yet, [null], or an object. *)
Inductive Binding : Type :=
| Undefined
| Null
| Object (o : Selection).

(** [TypeError] is the property read [.keyId] on [undefined]. *)
Inductive Completion (A : Type) : Type :=
| Normal (a : A)
| TypeError.
Arguments Normal {A} a.
Arguments TypeError {A}.

(** The function given to [$derived.by], with the value the name
    [lastSelectedKey] stands for inside it as the argument [self]. *)
Definition lastSelectedKey (self : Binding) (keys : list KeyInfo)
    : Completion Binding :=
  match self with
  | Undefined | Null => Normal Null
  | Object cur =>
      if bool_decide (length keys = 0)
         || lengthAtMost (length keys) (index cur)
      then Normal Null
      else
        match element keys (index cur) with
        | None => TypeError
        | Some newLastSelectedKey =>
            if negb (bool_decide (keyId newLastSelectedKey = keyId (info cur)))
            then Normal Null
            else Normal (Object (MkSelection (index cur) newLastSelectedKey))
        end
  end.

End Shared.

(** ** KeyList.svelte *)

Module KeyList.

Record State : Type := MkState {
  keys : list KeyInfo;
  loading : bool;
  error : option jsstring
}.

Definition init : State := MkState [] true None.

Record Run : Type := MkRun {
  final : State;
  issued : list Invocation
}.

(** On a failed load the list is left as it was. *)
Definition loadKeys (st : State) (reply : Settled (list KeyInfo)) : Run :=
  let st1 := MkState (keys st) true None in
  let st2 :=
    match reply with
    | Resolved ks => MkState ks (loading st1) (error st1)
    | Rejected e =>
        MkState (keys st1) (loading st1)
                (Some (lit "Failed load: " ++ describe e))
    end in
  MkRun (MkState (keys st2) false (error st2)) [MkInvocation "list_keys" []].

(** The branch of the template's [{#if loading} ... {:else if error} ...
    {:else if keys.length === 0} ... {:else}] chain that is shown. *)
Inductive Display : Type :=
| ShowLoading
| ShowError (message : jsstring)
| ShowEmpty
| ShowKeys (listed : list KeyInfo).

Definition display (st : State) : Display :=
  if loading st then ShowLoading
  else
    match error st with
    | Some ((_ :: _) as message) => ShowError message
    | _ =>
        if bool_decide (length (keys st) = 0) then ShowEmpty
        else ShowKeys (keys st)
    end.

(** [key.keyId.substring(0, 8)] *)
Definition shortId (key : KeyInfo) : jsstring := take 8 (keyId key).

End KeyList.

(** ** KeyDetailsView.svelte *)

Module KeyDetailsView.

Record State : Type := MkState {
  keyDetails : option KeyDetails;
  loading : bool;
  error : option jsstring;
  copyButtonText : jsstring
}.

Definition init : State := MkState None true None (lit "Copy Public Key").

(** [titles] are the values written to the [navTitle] store, in order. *)
Record Run : Type := MkRun {
  final : State;
  issued : list Invocation;
  titles : list jsstring
}.

Definition request (keyId : option jsstring) : Invocation :=
  MkInvocation "get_key_details" [("keyId", ofNullable keyId)].

(** The body of the view's [$effect] together with its [loadData];
    [keyId] is the property handed in by the page, [reply] how the back
    end settles [get_key_details] (possibly with [null]). *)
Definition effect (keyId : option jsstring) (st : State)
    (reply : Settled (option KeyDetails)) : Run :=
  if negb (truthy_opt keyId) then
    MkRun (MkState None false (Some (lit "No Key ID provided."))
                   (copyButtonText st))
          [] [lit "Key Details"]
  else
    let sent := request keyId in
    match reply with
    | Resolved (Some result) =>
        MkRun (MkState (Some result) false None (lit "Copy Public Key"))
              [sent]
              [lit "Loading Key..."; lit "Key Details: " ++ name (info result)]
    | Resolved None =>
        MkRun (MkState None false
                       (Some (lit "Failed to load key details (empty result)."))
                       (lit "Copy Public Key"))
              [sent]
              [lit "Loading Key..."; lit "Key Details Error"]
    | Rejected e =>
        MkRun (MkState None false (Some (lit "Failed load: " ++ describe e))
                       (lit "Copy Public Key"))
              [sent]
              [lit "Loading Key..."; lit "Key Loading Error"]
    end.

(** The branch of the template's [{#if loading} ... {:else if error} ...
    {:else if keyDetails} ... {:else}] chain that is shown. *)
Inductive Display : Type :=
| ShowLoading
| ShowError (message : jsstring)
| ShowDetails (details : KeyDetails)
| ShowFallback.

Definition display (st : State) : Display :=
  if loading st then ShowLoading
  else
    match error st with
    | Some ((_ :: _) as message) => ShowError message
    | _ =>
        match keyDetails st with
        | Some details => ShowDetails details
        | None => ShowFallback
        end
    end.

(** What one click on the copy button leaves behind: the state, the
    texts written to the clipboard and the number of two-second timers
    started.  [outcome] is how the clipboard write settles. *)
Record Copy : Type := MkCopy {
  copied : State;
  written : list jsstring;
  timers : nat
}.

Definition set_copyButtonText (t : jsstring) (st : State) : State :=
  MkState (keyDetails st) (loading st) (error st) t.

Definition copyToClipboard (st : State) (text : jsstring)
    (outcome : Settled unit) : Copy :=
  if negb (truthy text) then MkCopy st [] 0
  else
    match outcome with
    | Resolved _ => MkCopy (set_copyButtonText (lit "Copied!") st) [text] 1
    | Rejected _ => MkCopy (set_copyButtonText (lit "Copy Failed") st) [text] 1
    end.

(** The callback of either timer. *)
Definition timeout (st : State) : State :=
  set_copyButtonText (lit "Copy Public Key") st.

(** The copy button: [copyToClipboard(keyDetails!.publicKeyPem)], shown
    only with the details. *)
Definition clickCopy (st : State) (outcome : Settled unit) : Copy :=
  match display st with
  | ShowDetails details => copyToClipboard st (publicKeyPem details) outcome
  | _ => MkCopy st [] 0
  end.

End KeyDetailsView.

(** ** src/routes/+page.svelte *)

Module Page.

(** The union type [View]; [viewLiteral] gives the source's literals. *)
Inductive View : Type := vList | vGenerate | vDetails | vSign | vVerify.

Definition viewLiteral (v : View) : string :=
  match v with
  | vList => "list"
  | vGenerate => "generate"
  | vDetails => "details"
  | vSign => "sign"
  | vVerify => "verify"
  end.

Record State : Type := MkState {
  currentView : View;
  selectedKeyId : option jsstring;
  navTitle : jsstring
}.

(** [title] is what the [navTitle] store holds when the page starts. *)
Definition init (title : jsstring) : State := MkState vList None title.

Definition showList (st : State) : State :=
  MkState vList None (lit "Key Management").

Definition showGenerate (st : State) : State :=
  MkState vGenerate None (lit "Generate New Key").

Definition showDetails (keyId : jsstring) (st : State) : State :=
  MkState vDetails (Some keyId) (lit "Key Details").

Definition showSign (st : State) : State :=
  MkState vSign None (lit "Sign Document").

Definition showVerify (st : State) : State :=
  MkState vVerify None (lit "Verify Signature").

Definition handleKeyGenerated (details : KeyDetails) (st : State) : State :=
  showDetails (keyId (info details)) st.

(** The child component the [{#if}] chain of [<main>] mounts. *)
Inductive Component : Type :=
| MountKeyList
| MountGenerateKey
| MountKeyDetailsView (keyId : option jsstring)
| MountSignView
| MountVerifyView.

Definition content (st : State) : option Component :=
  match currentView st with
  | vList => Some MountKeyList
  | vGenerate => Some MountGenerateKey
  | vDetails =>
      if truthy_opt (selectedKeyId st)
      then Some (MountKeyDetailsView (selectedKeyId st))
      else None
  | vSign => Some MountSignView
  | vVerify => Some MountVerifyView
  end.

(** The [class:active] conditions of the three navigation buttons. *)
Definition manageActive (st : State) : bool :=
  match currentView st with
  | vList | vGenerate | vDetails => true
  | _ => false
  end.

Definition signActive (st : State) : bool :=
  match currentView st with vSign => true | _ => false end.

Definition verifyActive (st : State) : bool :=
  match currentView st with vVerify => true | _ => false end.

(** What can happen to the page: a click on one of its navigation
    buttons, or a callback it handed to the mounted component. *)
Inductive Event : Type :=
| ClickManage
| ClickSign
| ClickVerify
| OnGenerate
| OnViewDetails (keyId : jsstring)
| OnGenerated (details : KeyDetails)
| OnCancel
| OnBack.

Definition handle (st : State) (ev : Event) : State :=
  match ev with
  | ClickManage => showList st
  | ClickSign => showSign st
  | ClickVerify => showVerify st
  | OnGenerate => showGenerate st
  | OnViewDetails keyId => showDetails keyId st
  | OnGenerated details => handleKeyGenerated details st
  | OnCancel => showList st
  | OnBack => showList st
  end.

(** Whether the mounted component holds the callback: [KeyList] has
    [onGenerate] and [onViewDetails], [GenerateKey] has [onGenerated]
    and [onCancel], the other three have [onBack]. *)
Definition offered (st : State) (ev : Event) : bool :=
  match ev, content st with
  | (ClickManage | ClickSign | ClickVerify), _ => true
  | (OnGenerate | OnViewDetails _), Some MountKeyList => true
  | (OnGenerated _ | OnCancel), Some MountGenerateKey => true
  | OnBack, Some (MountKeyDetailsView _ | MountSignView | MountVerifyView) =>
      true
  | _, _ => false
  end.

Definition step (st : State) (ev : Event) : State :=
  if offered st ev then handle st ev else st.

Definition run (st : State) (events : list Event) : State :=
  foldl step st events.

(** The key identifier an event hands to [showDetails], if any. *)
Definition shownKey (ev : Event) : option jsstring :=
  match ev with
  | OnViewDetails keyId => Some keyId
  | OnGenerated details => Some (keyId (info details))
  | _ => None
  end.

End Page.

(** ** A session of the signing view

    The view is mounted, [loadKeys] runs, and the user then works the
    form.  While the keys are loading every control of the form is
    disabled or absent, so nothing happens before [loadKeys] is done.
    After each change of state the view's effect runs. *)

Module SignSession.
Import SignView.

Inductive Event : Type :=
| PickDocument (picked : Settled (option jsstring))
| ChooseKey (option_index : nat)
| TypePassword (text : jsstring)
| Submit (saved : Settled (option jsstring)) (reply : Settled unit).

(** [ChooseKey i] picks the option made from [keys[i]] in the
    [<select bind:value={selectedKeyId}>]; [TypePassword] is the
    [bind:value={password}] of the password field. *)
Definition handle (st : State) (ev : Event) : Run :=
  match ev with
  | PickDocument picked => MkRun (selectDocument st picked) []
  | ChooseKey i =>
      match keys st !! i with
      | Some key => MkRun (set_selectedKeyId (Some (keyId key)) st) []
      | None => MkRun st []
      end
  | TypePassword text => MkRun (set_password text st) []
  | Submit saved reply => signDocument st saved reply
  end.

Definition step (st : State) (ev : Event) : Run :=
  let r := handle st ev in MkRun (effect (final r)) (issued r).

Fixpoint run (st : State) (events : list Event) : Run :=
  match events with
  | [] => MkRun st []
  | ev :: later =>
      let r := step st ev in
      let r' := run (final r) later in
      MkRun (final r') (issued r ++ issued r')
  end.

Definition mounted (listing : Settled (list KeyInfo)) : Run :=
  let r := loadKeys init listing in MkRun (effect (final r)) (issued r).

Definition session (listing : Settled (list KeyInfo)) (events : list Event)
    : Run :=
  let r := mounted listing in
  let r' := run (final r) events in
  MkRun (final r') (issued r ++ issued r').

(** The states the view is in while the handler of an event waits, for
    a dialog or for the back end: [selectDocument] waits after clearing
    both messages, [signDocument] after its guards with [signing] set
    and both messages cleared; the two bindings do not wait. *)
Definition awaiting (st : State) (ev : Event) : list State :=
  match ev with
  | PickDocument _ => [set_successMessage None (set_error None st)]
  | ChooseKey _ | TypePassword _ => []
  | Submit _ _ =>
      if negb (truthy_opt (documentPath st))
         || negb (truthy_opt (selectedKeyId st)) then []
      else if negb (truthy (password st)) then []
      else [set_successMessage None (set_error None (set_signing true st))]
  end.

Fixpoint visitedFrom (st : State) (events : list Event) : list State :=
  match events with
  | [] => []
  | ev :: later =>
      awaiting st ev
      ++ final (step st ev) :: visitedFrom (final (step st ev)) later
  end.

(** Every state of a session, in order: the initial one, the one in
    which [loadKeys] waits for the back end, the one it leaves, and for
    each event the states in which its handler waits and the state it
    leaves. *)
Definition visited (listing : Settled (list KeyInfo)) (events : list Event)
    : list State :=
  init :: set_error None (set_loadingKeys true init)
  :: final (mounted listing) :: visitedFrom (final (mounted listing)) events.

(** The [disabled] condition of the submit button. *)
Definition submitDisabled (st : State) : bool :=
  signing st || loadingKeys st || negb (truthy_opt (documentPath st))
  || negb (truthy_opt (selectedKeyId st))
  || bool_decide (length (keys st) = 0).

(** The [disabled] condition of the password field. *)
Definition passwordDisabled (st : State) : bool :=
  signing st || negb (truthy_opt (selectedKeyId st))
  || bool_decide (length (keys st) = 0).

(** The list the back end answered [list_keys] with; none on failure. *)
Definition loaded (listing : Settled (list KeyInfo)) : list KeyInfo :=
  match listing with Resolved ks => ks | Rejected _ => [] end.

End SignSession.

(** ** A session of the verification view *)

Module VerifySession.
Import VerifyView.

Inductive Event : Type :=
| PickFile (type : FileKind) (picked : Settled (option jsstring))
| ChooseKey (option_index : nat)
| Submit (reply : Settled VerificationResult).

Definition handle (st : State) (ev : Event) : Run :=
  match ev with
  | PickFile type picked => MkRun (selectFile st type picked) []
  | ChooseKey i =>
      match keys st !! i with
      | Some key => MkRun (set_selectedKeyId (Some (keyId key)) st) []
      | None => MkRun st []
      end
  | Submit reply => verify st reply
  end.

Definition step (st : State) (ev : Event) : Run :=
  let r := handle st ev in MkRun (effect (final r)) (issued r).

Fixpoint run (st : State) (events : list Event) : Run :=
  match events with
  | [] => MkRun st []
  | ev :: later =>
      let r := step st ev in
      let r' := run (final r) later in
      MkRun (final r') (issued r ++ issued r')
  end.

Definition mounted (listing : Settled (list KeyInfo)) : Run :=
  let r := loadKeys init listing in MkRun (effect (final r)) (issued r).

Definition session (listing : Settled (list KeyInfo)) (events : list Event)
    : Run :=
  let r := mounted listing in
  let r' := run (final r) events in
  MkRun (final r') (issued r ++ issued r').

(** The states the view is in while the handler of an event waits, for
    a dialog or for the back end: [selectFile] waits after clearing the
    error and the result, [verify] after its guard with [verifying] set
    and the error and the result cleared; the binding does not wait. *)
Definition awaiting (st : State) (ev : Event) : list State :=
  match ev with
  | PickFile _ _ => [set_verificationResult None (set_error None st)]
  | ChooseKey _ => []
  | Submit _ =>
      if negb (truthy_opt (documentPath st))
         || negb (truthy_opt (signaturePath st))
         || negb (truthy_opt (selectedKeyId st)) then []
      else [set_verificationResult None
              (set_error None (set_verifying true st))]
  end.

Fixpoint visitedFrom (st : State) (events : list Event) : list State :=
  match events with
  | [] => []
  | ev :: later =>
      awaiting st ev
      ++ final (step st ev) :: visitedFrom (final (step st ev)) later
  end.

(** Every state of a session, in order: the initial one, the one in
    which [loadKeys] waits for the back end, the one it leaves, and for
    each event the states in which its handler waits and the state it
    leaves. *)
Definition visited (listing : Settled (list KeyInfo)) (events : list Event)
    : list State :=
  init :: set_error None (set_loadingKeys true init)
  :: final (mounted listing) :: visitedFrom (final (mounted listing)) events.

(** The [disabled] condition of the submit button. *)
Definition submitDisabled (st : State) : bool :=
  verifying st || loadingKeys st || negb (truthy_opt (documentPath st))
  || negb (truthy_opt (signaturePath st))
  || negb (truthy_opt (selectedKeyId st))
  || bool_decide (length (keys st) = 0).

(** What the template shows below the form: the error alert under
    [{#if error && !verificationResult}], the result panel under
    [{#if verificationResult}], and in it the reason under
    [{#if verificationResult.errorMessage}] of an invalid result. *)
Definition showsError (st : State) : bool :=
  truthy_opt (error st) && negb (bool_decide (is_Some (verificationResult st))).

Definition showsResult (st : State) : bool :=
  bool_decide (is_Some (verificationResult st)).

Definition shownReason (st : State) : option jsstring :=
  match verificationResult st with
  | Some result =>
      if isValid result then None
      else if truthy_opt (errorMessage result) then errorMessage result
      else None
  | None => None
  end.

End VerifySession.

(** ** Sample inputs *)

(** A string of white space only (the empty string included). *)
Definition blank (s : jsstring) : Prop := Forall (λ c, isWhiteSpace c = true) s.

Definition sampleKeyInfo : KeyInfo :=
  MkKeyInfo (lit "0b9f6c1e") (lit "Work key") (lit "Ed25519")
            (lit "2025-04-01T10:00:00Z").

Definition sampleDetails : KeyDetails :=
  MkKeyDetails sampleKeyInfo (lit "-----BEGIN PUBLIC KEY-----").

(** The generation form filled in with the name [" Work key "] (a blank
    on each side), Ed25519 and the password ["pw"] twice. *)
Definition filledForm : GenerateKey.State :=
  GenerateKey.MkState (lit " Work key ") Ed25519 (lit "pw") (lit "pw")
                      false None.

Definition readyToSign : SignView.State :=
  SignView.MkState [sampleKeyInfo] (Some (keyId sampleKeyInfo))
    (Some (lit "/home/u/report.pdf")) (lit "pw") false false None None.

Definition readyToVerify : VerifyView.State :=
  VerifyView.MkState [sampleKeyInfo] (Some (keyId sampleKeyInfo))
    (Some (lit "/home/u/report.pdf")) (Some (lit "/home/u/report.pdf.sig"))
    false false None None.

Definition badSignature : VerificationResult :=
  MkVerificationResult false (Some (lit "signature mismatch")).


Definition otherKeyInfo : KeyInfo :=
  MkKeyInfo (lit "7c2d44aa") (lit "Home key") (lit "RSA-PKCS1-SHA256")
            (lit "2025-04-02T09:30:00Z").

(** The page in the generation view, and a details view that has loaded
    the sample key. *)
Definition generating : Page.State :=
  Page.MkState Page.vGenerate None (lit "Generate New Key").

Definition detailsLoaded : KeyDetailsView.State :=
  KeyDetailsView.MkState (Some sampleDetails) false None (lit "Copy Public Key").

(** The page holds a key identifier exactly in the details view. *)
Definition detailsHasKey (st : Page.State) : Prop :=
  Page.currentView st = Page.vDetails ↔ is_Some (Page.selectedKeyId st).

(** Every key identifier the events hand to the page is non-empty. *)
Definition keysNamed (events : list Page.Event) : Prop :=
  ∀ ev id, ev ∈ events → Page.shownKey ev = Some id → id ≠ [].

(** The navigation button that is lit matches the mounted component. *)
Definition navigationMatches (st : Page.State) : Prop :=
  match Page.content st with
  | Some (Page.MountKeyList | Page.MountGenerateKey
          | Page.MountKeyDetailsView _) =>
      Page.manageActive st = true ∧ Page.signActive st = false
      ∧ Page.verifyActive st = false
  | Some Page.MountSignView =>
      Page.manageActive st = false ∧ Page.signActive st = true
      ∧ Page.verifyActive st = false
  | Some Page.MountVerifyView =>
      Page.manageActive st = false ∧ Page.signActive st = false
      ∧ Page.verifyActive st = true
  | None => False
  end.

(** ** States a session can reach *)

(** In the signing view: loading and signing are over, the document path
    is [null] or a non-empty path, and the selection is the identifier
    of a listed key, or [null] with no key listed. *)
Definition signCoherent (ks : list KeyInfo) (st : SignView.State) : Prop :=
  SignView.keys st = ks
  ∧ SignView.loadingKeys st = false
  ∧ SignView.signing st = false
  ∧ SignView.documentPath st ≠ Some []
  ∧ (ks = [] → SignView.selectedKeyId st = None)
  ∧ (ks ≠ [] → ∃ k, k ∈ ks ∧ SignView.selectedKeyId st = Some (keyId k)).

Definition verifyCoherent (ks : list KeyInfo) (st : VerifyView.State) : Prop :=
  VerifyView.keys st = ks
  ∧ VerifyView.loadingKeys st = false
  ∧ VerifyView.verifying st = false
  ∧ VerifyView.documentPath st ≠ Some []
  ∧ VerifyView.signaturePath st ≠ Some []
  ∧ (ks = [] → VerifyView.selectedKeyId st = None)
  ∧ (ks ≠ [] → ∃ k, k ∈ ks ∧ VerifyView.selectedKeyId st = Some (keyId k)).


(** A [verify_signature] request for a key of the list [ks], complete. *)
Definition verifiesListedKey (ks : list KeyInfo) (inv : Invocation) : Prop :=
  command inv = "verify_signature"
  ∧ ∃ k doc sig,
      k ∈ ks
      ∧ payload inv
        = [ ("documentPath", JsString doc); ("signaturePath", JsString sig);
            ("keyId", JsString (keyId k)) ]
      ∧ doc ≠ [] ∧ sig ≠ [] ∧ keyId k ≠ [].

(** The path variable a file dialog of the given kind writes. *)
Definition pathOf (type : VerifyView.FileKind) (st : VerifyView.State)
    : option jsstring :=
  match type with
  | VerifyView.document => VerifyView.documentPath st
  | VerifyView.signature => VerifyView.signaturePath st
  end.

Definition otherKind (type : VerifyView.FileKind) : VerifyView.FileKind :=
  match type with
  | VerifyView.document => VerifyView.signature
  | VerifyView.signature => VerifyView.document
  end.

(** A shown verification result was asked for with the files that are
    selected now. *)
Definition resultCurrent (st : VerifyView.State) (sent : list Invocation)
    : Prop :=
  is_Some (VerifyView.verificationResult st) →
  ∃ inv, last sent = Some inv
         ∧ command inv = "verify_signature"
         ∧ prop "documentPath" (payload inv)
           = Some (ofNullable (VerifyView.documentPath st))
         ∧ prop "signaturePath" (payload inv)
           = Some (ofNullable (VerifyView.signaturePath st)).

(** * Properties *)

(** ** Trimming *)

Example trim_name : trim (lit "  My work key ") = lit "My work key".
Proof. reflexivity. Qed.

Example trim_unicode_space :
  trim ([0x00A0; 0x2003; 0x0009] ++ lit "k" ++ [0x000A; 0xFEFF])%N = lit "k".
Proof. reflexivity. Qed.

Example trim_only_space : trim (lit "   ") = [].
Proof. reflexivity. Qed.

Example trim_keeps_inner : trim [0x200B; 0x0020; 0x200B]%N = [0x200B; 0x0020; 0x200B]%N.
Proof. reflexivity. Qed.

Lemma trimStart_split (s : jsstring) :
  ∃ pre, s = pre ++ trimStart s ∧ blank pre.
Proof.
  induction s as [|c s [pre [Hs Hpre]]]; simpl.
  - exists []. split; [done | constructor].
  - destruct (isWhiteSpace c) eqn:Hc.
    + exists (c :: pre). split.
      * simpl. by f_equal.
      * by constructor.
    + exists []. split; [done | constructor].
Qed.

Lemma trimStart_head (s : jsstring) (c : N) :
  head (trimStart s) = Some c → isWhiteSpace c = false.
Proof.
  induction s as [|d s IH]; simpl; [done |].
  destruct (isWhiteSpace d) eqn:Hd; [done |].
  simpl. by intros [= <-].
Qed.

Lemma trimStart_nil (s : jsstring) : trimStart s = [] ↔ blank s.
Proof.
  induction s as [|c s IH]; simpl.
  - split; [constructor | done].
  - destruct (isWhiteSpace c) eqn:Hc.
    + rewrite IH. split.
      * by constructor.
      * by inversion 1.
    + split; [done |]. inversion 1; congruence.
Qed.

Lemma blank_reverse (s : jsstring) : blank (reverse s) ↔ blank s.
Proof. unfold blank. by rewrite !Forall_forall; setoid_rewrite elem_of_reverse. Qed.

Lemma trimEnd_split (s : jsstring) :
  ∃ post, s = trimEnd s ++ post ∧ blank post.
Proof.
  destruct (trimStart_split (reverse s)) as [pre [Hs Hpre]].
  exists (reverse pre). split.
  - unfold trimEnd. rewrite <- reverse_app, <- Hs. by rewrite reverse_involutive.
  - by apply blank_reverse.
Qed.

Lemma trimEnd_last (s : jsstring) (c : N) :
  last (trimEnd s) = Some c → isWhiteSpace c = false.
Proof. unfold trimEnd. rewrite last_reverse. apply trimStart_head. Qed.

Lemma trimEnd_nil (s : jsstring) : trimEnd s = [] ↔ blank s.
Proof.
  unfold trimEnd. rewrite <- blank_reverse, <- trimStart_nil.
  split; intros E.
  - apply (f_equal reverse) in E. by rewrite reverse_involutive in E.
  - by rewrite E.
Qed.

Lemma blank_app (s t : jsstring) : blank (s ++ t) ↔ blank s ∧ blank t.
Proof. apply Forall_app. Qed.

Lemma trim_nil (s : jsstring) : trim s = [] ↔ blank s.
Proof.
  unfold trim. rewrite trimEnd_nil.
  destruct (trimStart_split s) as [pre [Hs Hpre]].
  split; intros E.
  - rewrite Hs. by apply blank_app.
  - rewrite Hs in E. by apply blank_app in E as [_ E].
Qed.

Lemma trim_split (s : jsstring) :
  ∃ pre post, s = pre ++ trim s ++ post ∧ blank pre ∧ blank post.
Proof.
  destruct (trimStart_split s) as [pre [Hs Hpre]].
  destruct (trimEnd_split (trimStart s)) as [post [Ht Hpost]].
  exists pre, post. unfold trim. by rewrite <- Ht.
Qed.

Lemma trim_last (s : jsstring) (c : N) :
  last (trim s) = Some c → isWhiteSpace c = false.
Proof. apply trimEnd_last. Qed.

Lemma trim_head (s : jsstring) (c : N) :
  head (trim s) = Some c → isWhiteSpace c = false.
Proof.
  unfold trim. intros Hc.
  destruct (trimEnd_split (trimStart s)) as [post [Ht _]].
  apply (trimStart_head s). rewrite Ht.
  destruct (trimEnd (trimStart s)); [done | exact Hc].
Qed.

Lemma truthy_false (s : jsstring) : truthy s = false ↔ s = [].
Proof. by destruct s. Qed.

Lemma truthy_true (s : jsstring) : truthy s = true ↔ s ≠ [].
Proof. by destruct s. Qed.

Lemma truthy_opt_true (x : option jsstring) :
  truthy_opt x = true ↔ ∃ s, x = Some s ∧ s ≠ [].
Proof.
  destruct x as [[|c s]|]; simpl; split; try done.
  - intros (? & [= <-] & ?). done.
  - intros _. by eexists.
  - intros (? & ? & ?). done.
Qed.

(** ** Key generation form *)

Section GenerateKeyFacts.
Import GenerateKey.

(** The handler invokes at most once, and then with [request]. *)
Lemma generateKey_issued (st : State) (reply : Settled KeyDetails)
    (inv : Invocation) :
  inv ∈ issued (generateKey st reply) →
  inv = request st
  ∧ password st = confirmPassword st
  ∧ trim (keyName st) ≠ []
  ∧ password st ≠ [].
Proof.
  unfold generateKey.
  case_bool_decide as Hpw; simpl; [| by intros ?%elem_of_nil].
  destruct (truthy (trim (keyName st))) eqn:Hname; simpl;
    [| by intros ?%elem_of_nil].
  destruct (truthy (password st)) eqn:Hp; simpl; [| by intros ?%elem_of_nil].
  apply truthy_true in Hname, Hp.
  destruct reply; simpl; intros ->%list_elem_of_singleton; done.
Qed.

(** C4: every [generate_key_pair] request carries as [name] the entered
    name with the white space around it removed, which is not empty, and
    as [password] the entered password, which is not empty; when the
    entered name is empty or all white space, or the password is empty,
    or the two password fields differ, the handler leaves an error
    message, invokes nothing and does not call [onGenerated]. *)
Theorem generateKey_validates_input (st : State) (reply : Settled KeyDetails) :
  (∀ inv, inv ∈ issued (generateKey st reply) →
     command inv = "generate_key_pair"
     ∧ ∃ n p,
         prop "name" (payload inv) = Some (JsString n)
         ∧ prop "password" (payload inv) = Some (JsString p)
         ∧ n ≠ []
         ∧ (∃ pre post, keyName st = pre ++ n ++ post ∧ blank pre ∧ blank post)
         ∧ (∀ c, head n = Some c ∨ last n = Some c → isWhiteSpace c = false)
         ∧ p = password st
         ∧ p ≠ [])
  ∧ (blank (keyName st) ∨ password st = []
     ∨ password st ≠ confirmPassword st →
     issued (generateKey st reply) = []
     ∧ generated (generateKey st reply) = []
     ∧ is_Some (error (final (generateKey st reply)))).
Proof.
  split.
  - intros inv (-> & _ & Hname & Hp)%generateKey_issued.
    split; [done |].
    exists (trim (keyName st)), (password st). simpl.
    repeat split; try done.
    + apply trim_split.
    + intros c [Hc | Hc]; [by eapply trim_head | by eapply trim_last].
  - intros Hbad. unfold generateKey.
    case_bool_decide as Hpw; simpl; [| by eauto].
    destruct (truthy (trim (keyName st))) eqn:Hname; simpl; [| by eauto].
    destruct (truthy (password st)) eqn:Hp; simpl; [| by eauto].
    apply truthy_true in Hname, Hp.
    destruct Hbad as [Hblank | [Hempty | Hdiff]]; [| done | done].
    by apply trim_nil in Hblank.
Qed.

Lemma generateKey_validates_input_witness :
  (∃ n, prop "name" (payload (request filledForm)) = Some (JsString n)
        ∧ n = lit "Work key")
  ∧ issued (generateKey init (Resolved sampleDetails)) = [].
Proof.
  split.
  - destruct (generateKey_validates_input filledForm (Resolved sampleDetails))
      as [Hsent _].
    destruct (Hsent (request filledForm)) as (_ & n & p & Hn & _).
    + vm_compute. left.
    + exists n. split; [exact Hn |]. vm_compute in Hn. by injection Hn as <-.
  - destruct (generateKey_validates_input init (Resolved sampleDetails))
      as [_ Hrefused].
    apply Hrefused. left. constructor.
Defined.

(** C5, as the code has it: a filled-in form sends one request, whose
    inputs are named [name], [algStr] and [password]; no input of it is
    named [algorithm]. *)
Lemma generateKey_no_input_named_algorithm :
  ∃ inv, issued (generateKey filledForm (Resolved sampleDetails)) = [inv]
         ∧ command inv = "generate_key_pair"
         ∧ inputNames inv = ["name"; "algStr"; "password"]
         ∧ prop "algorithm" (payload inv) = None.
Proof. eexists. by vm_compute. Qed.

(** C5 amended: every [generate_key_pair] request supplies exactly the
    three inputs named [name], [algStr] and [password], and [algStr]
    carries the literal of the selected algorithm, one of the three
    variants. *)
Theorem generateKey_request_inputs (st : State) (reply : Settled KeyDetails)
    (inv : Invocation) :
  inv ∈ issued (generateKey st reply) →
  command inv = "generate_key_pair"
  ∧ inputNames inv = ["name"; "algStr"; "password"]
  ∧ prop "algStr" (payload inv)
    = Some (JsString (lit (algorithmLiteral (selectedAlgorithm st))))
  ∧ algorithmLiteral (selectedAlgorithm st)
    ∈ ["RSA-PKCS1-SHA256"; "ECDSA-P256-SHA256"; "Ed25519"].
Proof.
  intros (-> & _)%generateKey_issued.
  repeat split.
  destruct (selectedAlgorithm st); simpl; by repeat constructor.
Qed.

Lemma generateKey_request_inputs_witness :
  prop "algStr" (payload (request filledForm)) = Some (JsString (lit "Ed25519")).
Proof.
  refine (proj1 (proj2 (proj2
    (generateKey_request_inputs filledForm (Resolved sampleDetails)
       (request filledForm) _)))).
  vm_compute. left.
Defined.

(** C7: the algorithms offered for generation are the three variants
    [RSA-PKCS1-SHA256], [ECDSA-P256-SHA256] and [Ed25519], each once;
    the type [SignatureAlgorithm] has these three values and no other;
    and the form starts on one of them. *)
Theorem supportedAlgorithms_exact :
  value <$> supportedAlgorithmsForGeneration
    = [RSA_PKCS1_SHA256; ECDSA_P256_SHA256; Ed25519]
  ∧ (∀ a : SignatureAlgorithm, a ∈ value <$> supportedAlgorithmsForGeneration)
  ∧ NoDup (value <$> supportedAlgorithmsForGeneration)
  ∧ (∀ s : string,
       (∃ a, algorithmLiteral a = s)
       ↔ s ∈ ["RSA-PKCS1-SHA256"; "ECDSA-P256-SHA256"; "Ed25519"])
  ∧ (∀ s : string,
       s ∈ (algorithmLiteral ∘ value <$> supportedAlgorithmsForGeneration)
       ↔ s ∈ ["RSA-PKCS1-SHA256"; "ECDSA-P256-SHA256"; "Ed25519"])
  ∧ (∀ a b, algorithmLiteral a = algorithmLiteral b → a = b)
  ∧ selectedAlgorithm init ∈ value <$> supportedAlgorithmsForGeneration.
Proof.
  split; [done |].
  split; [intros []; simpl; by repeat constructor |].
  split; [by apply (bool_decide_unpack _) |].
  split.
  { intros s. split.
    - intros [[] <-]; simpl; by repeat constructor.
    - intros Hs. repeat (apply elem_of_cons in Hs as [-> | Hs]);
        [by exists RSA_PKCS1_SHA256 | by exists ECDSA_P256_SHA256
        | by exists Ed25519 | by apply elem_of_nil in Hs]. }
  split; [done |].
  split; [by intros [] [] |].
  simpl. by repeat constructor.
Qed.

Lemma supportedAlgorithms_exact_witness :
  (∃ a, algorithmLiteral a = "Ed25519")
  ∧ ¬ (∃ a, algorithmLiteral a = "RSA-PSS-SHA256").
Proof.
  destruct supportedAlgorithms_exact as (_ & _ & _ & Hlit & _).
  split.
  - apply Hlit. by repeat constructor.
  - intros Ha. apply Hlit in Ha.
    repeat (apply elem_of_cons in Ha as [Ha | Ha]; [discriminate |]).
    by apply elem_of_nil in Ha.
Defined.

End GenerateKeyFacts.

(** ** Signing view *)

Section SignViewFacts.
Import SignView.

(** The handler invokes at most once; when it does, all three guards and
    the save dialog were passed. *)
Lemma signDocument_issued (st : State) (saved : Settled (option jsstring))
    (reply : Settled unit) (inv : Invocation) :
  inv ∈ issued (signDocument st saved reply) →
  ∃ doc key out,
    documentPath st = Some doc ∧ doc ≠ []
    ∧ selectedKeyId st = Some key ∧ key ≠ []
    ∧ password st ≠ []
    ∧ saved = Resolved (Some out) ∧ out ≠ []
    ∧ inv = request st (Some out) (MkSigningOptions detached)
    ∧ issued (signDocument st saved reply) = [inv].
Proof.
  unfold signDocument.
  destruct (truthy_opt (documentPath st)) eqn:Hdoc; simpl;
    [| by intros ?%elem_of_nil].
  destruct (truthy_opt (selectedKeyId st)) eqn:Hkey; simpl;
    [| by intros ?%elem_of_nil].
  destruct (truthy (password st)) eqn:Hpw; simpl; [| by intros ?%elem_of_nil].
  destruct saved as [outputPath | e]; simpl; [| by intros ?%elem_of_nil].
  destruct (truthy_opt outputPath) eqn:Hout; simpl; [| by intros ?%elem_of_nil].
  apply truthy_opt_true in Hdoc as (doc & Hdoc & ?).
  apply truthy_opt_true in Hkey as (key & Hkey & ?).
  apply truthy_opt_true in Hout as (out & -> & ?).
  apply truthy_true in Hpw.
  intros Hin. exists doc, key, out.
  destruct reply; simpl in *; apply list_elem_of_singleton in Hin as ->; done.
Qed.



(** C10: once [sign_document] has been invoked, a successful answer
    leaves the password empty and the document path and the selected
    key as they were; a failure leaves the password, the document path
    and the selected key as they were and sets the error message (the
    success message stays cleared and [signing] is switched off). *)
Theorem signDocument_frame (st : State) (saved : Settled (option jsstring))
    (reply : Settled unit) (inv : Invocation) :
  inv ∈ issued (signDocument st saved reply) →
  let after := final (signDocument st saved reply) in
  keys after = keys st
  ∧ documentPath after = documentPath st
  ∧ selectedKeyId after = selectedKeyId st
  ∧ loadingKeys after = loadingKeys st
  ∧ signing after = false
  ∧ match reply with
    | Resolved _ =>
        password after = []
        ∧ error after = None
        ∧ is_Some (successMessage after)
    | Rejected e =>
        password after = password st
        ∧ error after = Some (lit "Signing failed: " ++ describe e)
        ∧ successMessage after = None
    end.
Proof.
  intros (doc & key & out & Hdoc & Hd & Hkey & Hk & Hpw & -> & Ho & _ & _)
    %signDocument_issued.
  unfold signDocument. rewrite Hdoc, Hkey. simpl.
  apply truthy_true in Hd, Hk, Hpw, Ho. rewrite Hd, Hk, Hpw, Ho. simpl.
  destruct reply; simpl; eauto 10.
Qed.

Lemma signDocument_frame_witness :
  password (final (signDocument readyToSign
                     (Resolved (Some (lit "/home/u/report.pdf.sig")))
                     (Resolved tt))) = []
  ∧ password (final (signDocument readyToSign
                       (Resolved (Some (lit "/home/u/report.pdf.sig")))
                       (Rejected (ThrownValue (lit "InvalidPassword")))))
    = lit "pw".
Proof.
  split.
  - refine (proj1 (proj2 (proj2 (proj2 (proj2 (proj2
      (signDocument_frame readyToSign
         (Resolved (Some (lit "/home/u/report.pdf.sig"))) (Resolved tt)
         (request readyToSign (Some (lit "/home/u/report.pdf.sig"))
            (MkSigningOptions detached)) _))))))).
    vm_compute. left.
  - refine (proj1 (proj2 (proj2 (proj2 (proj2 (proj2
      (signDocument_frame readyToSign
         (Resolved (Some (lit "/home/u/report.pdf.sig")))
         (Rejected (ThrownValue (lit "InvalidPassword")))
         (request readyToSign (Some (lit "/home/u/report.pdf.sig"))
            (MkSigningOptions detached)) _))))))).
    vm_compute. left.
Defined.

End SignViewFacts.

(** ** Verification view *)

Section VerifyViewFacts.
Import VerifyView.

(** The handler invokes at most once; when it does, the three guards
    were passed. *)
Lemma verify_issued (st : State) (reply : Settled VerificationResult)
    (inv : Invocation) :
  inv ∈ issued (verify st reply) →
  truthy_opt (documentPath st) = true
  ∧ truthy_opt (signaturePath st) = true
  ∧ truthy_opt (selectedKeyId st) = true
  ∧ inv = request st.
Proof.
  unfold verify.
  destruct (truthy_opt (documentPath st)); simpl; [| by intros ?%elem_of_nil].
  destruct (truthy_opt (signaturePath st)); simpl; [| by intros ?%elem_of_nil].
  destruct (truthy_opt (selectedKeyId st)); simpl; [| by intros ?%elem_of_nil].
  destruct reply; simpl; intros ->%list_elem_of_singleton; done.
Qed.

(** C1: when [verify_signature] was invoked and returned a result,
    valid or not, the result is stored in [verificationResult] and
    [error] is [null]; when the invocation threw, [error] is set and
    [verificationResult] is [null]; and however the handler ends (also
    when it refuses to invoke), [verificationResult] and [error] are
    never both non-null. *)
Theorem verify_result_or_error (st : State) (reply : Settled VerificationResult) :
  let after := final (verify st reply) in
  (∀ inv, inv ∈ issued (verify st reply) →
     match reply with
     | Resolved result =>
         verificationResult after = Some result ∧ error after = None
     | Rejected e =>
         error after
           = Some (lit "Verification process failed: " ++ describe e)
         ∧ verificationResult after = None
     end)
  ∧ (verificationResult after = None ∨ error after = None)
  ∧ (issued (verify st reply) = [] →
     is_Some (error after) ∧ verificationResult after = None).
Proof.
  unfold verify.
  destruct (truthy_opt (documentPath st)); simpl;
    [| by (split; [intros ? ?%elem_of_nil | eauto])].
  destruct (truthy_opt (signaturePath st)); simpl;
    [| by (split; [intros ? ?%elem_of_nil | eauto])].
  destruct (truthy_opt (selectedKeyId st)); simpl;
    [| by (split; [intros ? ?%elem_of_nil | eauto])].
  destruct reply; simpl; (split; [done | split; [eauto | done]]).
Qed.

Lemma verify_result_or_error_witness :
  verificationResult (final (verify readyToVerify (Resolved badSignature)))
    = Some badSignature
  ∧ error (final (verify readyToVerify (Resolved badSignature))) = None.
Proof.
  refine (proj1 (verify_result_or_error readyToVerify (Resolved badSignature))
            (request readyToVerify) _).
  vm_compute. left.
Defined.

(** C6: every [verify_signature] request has exactly the inputs
    [documentPath], [signaturePath] and [keyId], holding the view's
    three selections, and no input named [password]; nor does any other
    command the view issues have one. *)
Theorem verify_request_without_password (st : State)
    (reply : Settled VerificationResult) (listing : Settled (list KeyInfo))
    (inv : Invocation) :
  (inv ∈ issued (verify st reply) →
   command inv = "verify_signature"
   ∧ inputNames inv = ["documentPath"; "signaturePath"; "keyId"]
   ∧ prop "documentPath" (payload inv) = Some (ofNullable (documentPath st))
   ∧ prop "signaturePath" (payload inv) = Some (ofNullable (signaturePath st))
   ∧ prop "keyId" (payload inv) = Some (ofNullable (selectedKeyId st))
   ∧ prop "password" (payload inv) = None)
  ∧ (inv ∈ issued (loadKeys st listing) →
     command inv = "list_keys" ∧ inputNames inv = []).
Proof.
  split.
  - by intros (_ & _ & _ & ->)%verify_issued.
  - unfold loadKeys. simpl. by intros ->%list_elem_of_singleton.
Qed.

Lemma verify_request_without_password_witness :
  prop "password" (payload (request readyToVerify)) = None.
Proof.
  refine (proj2 (proj2 (proj2 (proj2 (proj2
    (proj1 (verify_request_without_password readyToVerify
              (Resolved badSignature) (Resolved []) (request readyToVerify))
       _)))))).
  vm_compute. left.
Defined.

End VerifyViewFacts.

(** ** Automatic key selection in both views *)

Lemma SignView_effect_keeps (st : SignView.State) :
  SignView.loadingKeys (SignView.effect st) = SignView.loadingKeys st
  ∧ SignView.keys (SignView.effect st) = SignView.keys st.
Proof.
  unfold SignView.effect.
  destruct (negb _ && _ && _); [| done].
  by destruct (SignView.keys st) eqn:E.
Qed.

Lemma VerifyView_effect_keeps (st : VerifyView.State) :
  VerifyView.loadingKeys (VerifyView.effect st) = VerifyView.loadingKeys st
  ∧ VerifyView.keys (VerifyView.effect st) = VerifyView.keys st.
Proof.
  unfold VerifyView.effect.
  destruct (negb _ && _ && _); [destruct (VerifyView.keys st) eqn:E |];
    simpl; by destruct (negb _ && bool_decide _).
Qed.

Lemma SignView_loadKeys_finished (st : SignView.State)
    (reply : Settled (list KeyInfo)) :
  SignView.loadingKeys (SignView.final (SignView.loadKeys st reply)) = false.
Proof. done. Qed.

Lemma VerifyView_loadKeys_finished (st : VerifyView.State)
    (reply : Settled (list KeyInfo)) :
  VerifyView.loadingKeys (VerifyView.final (VerifyView.loadKeys st reply)) = false.
Proof. done. Qed.

Lemma SignView_effect_selected (st : SignView.State) :
  SignView.loadingKeys st = false →
  SignView.keys st ≠ [] →
  is_Some (SignView.selectedKeyId (SignView.effect st)).
Proof.
  intros Hl Hk. unfold SignView.effect. rewrite Hl.
  destruct (SignView.keys st) as [|first rest]; [done |]. simpl.
  destruct (SignView.selectedKeyId st) eqn:Hsel; simpl.
  - rewrite Hsel. by eexists.
  - by eexists.
Qed.

Lemma VerifyView_effect_selected (st : VerifyView.State) :
  VerifyView.loadingKeys st = false →
  VerifyView.keys st ≠ [] →
  is_Some (VerifyView.selectedKeyId (VerifyView.effect st)).
Proof.
  intros Hl Hk. unfold VerifyView.effect. rewrite Hl.
  destruct (VerifyView.keys st) as [|first rest] eqn:Hks; [done |]. simpl.
  destruct (VerifyView.selectedKeyId st) eqn:Hsel; simpl;
    rewrite Hl, Hks; simpl.
  - rewrite Hsel. by eexists.
  - by eexists.
Qed.

(** C9: in the signing view and in the verification view, when loading
    has finished, the key list is not empty and no key is selected, the
    effect selects the first key's identifier; in the verification view,
    when loading has finished and the list is empty, the effect resets
    the selection to [null]; so once loading has finished and the effect
    has run, a non-empty key list has a selected key, in particular
    after [loadKeys]. *)
Theorem effect_selects_first_key :
  (∀ st first rest,
     SignView.loadingKeys st = false →
     SignView.keys st = first :: rest →
     SignView.selectedKeyId st = None →
     SignView.selectedKeyId (SignView.effect st) = Some (keyId first))
  ∧ (∀ st first rest,
       VerifyView.loadingKeys st = false →
       VerifyView.keys st = first :: rest →
       VerifyView.selectedKeyId st = None →
       VerifyView.selectedKeyId (VerifyView.effect st) = Some (keyId first))
  ∧ (∀ st,
       VerifyView.loadingKeys st = false →
       VerifyView.keys st = [] →
       VerifyView.selectedKeyId (VerifyView.effect st) = None)
  ∧ (∀ st,
       SignView.loadingKeys st = false →
       SignView.keys st ≠ [] →
       is_Some (SignView.selectedKeyId (SignView.effect st)))
  ∧ (∀ st,
       VerifyView.loadingKeys st = false →
       VerifyView.keys st ≠ [] →
       is_Some (VerifyView.selectedKeyId (VerifyView.effect st)))
  ∧ (∀ st reply,
       let after := SignView.effect (SignView.final (SignView.loadKeys st reply)) in
       SignView.loadingKeys after = false
       ∧ (SignView.keys after ≠ [] → is_Some (SignView.selectedKeyId after)))
  ∧ (∀ st reply,
       let after :=
         VerifyView.effect (VerifyView.final (VerifyView.loadKeys st reply)) in
       VerifyView.loadingKeys after = false
       ∧ (VerifyView.keys after ≠ [] → is_Some (VerifyView.selectedKeyId after))).
Proof.
  repeat split.
  - intros st first rest Hl Hk Hs. unfold SignView.effect.
    by rewrite Hl, Hk, Hs.
  - intros st first rest Hl Hk Hs. unfold VerifyView.effect.
    rewrite Hl, Hk, Hs. simpl. by rewrite Hl, Hk.
  - intros st Hl Hk. unfold VerifyView.effect.
    rewrite Hl, Hk. simpl. by rewrite Hl, Hk.
  - apply SignView_effect_selected.
  - apply VerifyView_effect_selected.
  - rewrite (proj1 (SignView_effect_keeps _)). apply SignView_loadKeys_finished.
  - intros Hk. rewrite (proj2 (SignView_effect_keeps _)) in Hk.
    by apply SignView_effect_selected.
  - rewrite (proj1 (VerifyView_effect_keeps _)).
    apply VerifyView_loadKeys_finished.
  - intros Hk. rewrite (proj2 (VerifyView_effect_keeps _)) in Hk.
    by apply VerifyView_effect_selected.
Qed.

Lemma effect_selects_first_key_witness :
  SignView.selectedKeyId
    (SignView.effect
       (SignView.set_loadingKeys false
          (SignView.set_keys [sampleKeyInfo] SignView.init)))
    = Some (keyId sampleKeyInfo)
  ∧ VerifyView.selectedKeyId
      (VerifyView.effect
         (VerifyView.set_loadingKeys false
            (VerifyView.set_selectedKeyId (Some (lit "gone")) VerifyView.init)))
    = None.
Proof.
  destruct effect_selects_first_key as (Hsign & _ & Hreset & _).
  split.
  - by apply (Hsign _ sampleKeyInfo []).
  - by apply Hreset.
Defined.

(** ** The derived binding [lastSelectedKey] *)

Section SharedFacts.
Import Shared.

Example lastSelectedKey_initially (keys : list KeyInfo) :
  lastSelectedKey Undefined keys = Normal Null.
Proof. reflexivity. Qed.

Example lastSelectedKey_fractional_index :
  lastSelectedKey (Object (MkSelection (Fraction 0) sampleKeyInfo))
                  [sampleKeyInfo]
    = TypeError.
Proof. reflexivity. Qed.




End SharedFacts.


(** * Further properties of the views *)

(** ** Signing view: handlers *)

Section SignViewMore.
Import SignView.

(** X1: the effect of either view is settled after one run: running it
    again changes nothing, and the one run touches no state but the
    selection. *)
Theorem effect_settles :
  (∀ st : SignView.State,
     SignView.effect (SignView.effect st) = SignView.effect st
     ∧ SignView.effect st
       = SignView.set_selectedKeyId
           (SignView.selectedKeyId (SignView.effect st)) st)
  ∧ (∀ st : VerifyView.State,
       VerifyView.effect (VerifyView.effect st) = VerifyView.effect st
       ∧ VerifyView.effect st
         = VerifyView.set_selectedKeyId
             (VerifyView.selectedKeyId (VerifyView.effect st)) st).
Proof.
  split.
  - intros [ks sel doc pw l sg e m]. unfold SignView.effect. simpl.
    destruct l, ks as [|k ks], sel; simpl; done.
  - intros [ks sel doc sg l v e r]. unfold VerifyView.effect. simpl.
    destruct l, ks as [|k ks], sel; simpl; done.
Qed.

(** X2: choosing a document clears both messages and leaves keys,
    selection and password alone; a chosen path becomes the document
    path, a cancelled dialog (or an empty answer) resets it to [null],
    and a failing dialog keeps it and reports the failure.  The document
    path never becomes the empty string. *)
Theorem selectDocument_outcome (st : State)
    (picked : Settled (option jsstring)) :
  let after := selectDocument st picked in
  keys after = keys st
  ∧ selectedKeyId after = selectedKeyId st
  ∧ password after = password st
  ∧ loadingKeys after = loadingKeys st
  ∧ signing after = signing st
  ∧ successMessage after = None
  ∧ match picked with
    | Resolved (Some (c :: path)) =>
        documentPath after = Some (c :: path) ∧ error after = None
    | Resolved _ => documentPath after = None ∧ error after = None
    | Rejected e =>
        documentPath after = documentPath st
        ∧ error after = Some (lit "Failed select doc: " ++ describe e)
    end
  ∧ (documentPath st ≠ Some [] → documentPath after ≠ Some []).
Proof.
  destruct picked as [[[|c path]|]|e]; simpl; repeat split; done.
Qed.

Lemma selectDocument_outcome_witness :
  documentPath (selectDocument readyToSign (Resolved None)) = None
  ∧ documentPath (selectDocument init (Resolved (Some (lit "/tmp/a.txt"))))
    ≠ Some [].
Proof.
  split.
  - exact (proj1 (proj1 (proj2 (proj2 (proj2 (proj2 (proj2 (proj2
      (selectDocument_outcome readyToSign (Resolved None)))))))))).
  - apply (proj2 (proj2 (proj2 (proj2 (proj2 (proj2 (proj2
      (selectDocument_outcome init (Resolved (Some (lit "/tmp/a.txt"))))))))))).
    discriminate.
Defined.

(** X3: a submission that invokes nothing never touches keys, selection,
    document path or password.  Refused by a guard, it changes the error
    message and nothing else, so an earlier success message stays; with
    the save dialog cancelled it clears both messages; with the save
    dialog failing it reports the failure. *)
Theorem signDocument_without_request (st : State)
    (saved : Settled (option jsstring)) (reply : Settled unit) :
  issued (signDocument st saved reply) = [] →
  let after := final (signDocument st saved reply) in
  keys after = keys st
  ∧ selectedKeyId after = selectedKeyId st
  ∧ documentPath after = documentPath st
  ∧ password after = password st
  ∧ loadingKeys after = loadingKeys st
  ∧ if negb (truthy_opt (documentPath st))
       || negb (truthy_opt (selectedKeyId st))
    then after = set_error (Some (lit "Please select a document and a key.")) st
    else if negb (truthy (password st))
    then after = set_error (Some (lit "Please enter the key password.")) st
    else
      signing after = false
      ∧ successMessage after = None
      ∧ match saved with
        | Resolved _ => error after = None
        | Rejected e => error after = Some (lit "Signing failed: " ++ describe e)
        end.
Proof.
  unfold signDocument.
  destruct (negb (truthy_opt (documentPath st))
            || negb (truthy_opt (selectedKeyId st))); [done |].
  destruct (negb (truthy (password st))); [done |].
  destruct saved as [outputPath|e]; [| done].
  destruct (negb (truthy_opt outputPath)); [done |].
  by destruct reply.
Qed.

Lemma signDocument_without_request_witness :
  password (final (signDocument readyToSign (Resolved None) (Resolved tt)))
    = lit "pw"
  ∧ error (final (signDocument readyToSign (Resolved None) (Resolved tt)))
    = None.
Proof.
  destruct (signDocument_without_request readyToSign (Resolved None)
              (Resolved tt) eq_refl)
    as (_ & _ & _ & Hpw & _ & Hrest).
  split; [exact Hpw |]. exact (proj2 (proj2 Hrest)).
Defined.

(** X4: after a signature was made the password is gone, so submitting
    again at once invokes nothing and asks for the password; after a
    failed invocation the form still holds everything, so submitting
    again with the same answer from the save dialog sends the same
    request. *)
Theorem signDocument_again (st : State) (saved saved' : Settled (option jsstring))
    (reply reply' : Settled unit) (inv : Invocation) :
  inv ∈ issued (signDocument st saved reply) →
  match reply with
  | Resolved _ =>
      issued (signDocument (final (signDocument st saved reply)) saved' reply')
        = []
      ∧ error (final (signDocument (final (signDocument st saved reply))
                        saved' reply'))
        = Some (lit "Please enter the key password.")
  | Rejected _ =>
      issued (signDocument (final (signDocument st saved reply)) saved reply')
        = [inv]
  end.
Proof.
  intros Hin.
  destruct (signDocument_issued st saved reply inv Hin)
    as (doc & key & out & Hd & ? & Hk & ? & Hpw & -> & ? & -> & _).
  destruct st as [ks sel dp pw l sg e m]. simpl in *. subst sel dp.
  destruct doc as [|c1 doc], key as [|c2 key], out as [|c3 out],
    pw as [|c4 pw]; try done.
  by destruct reply, reply'.
Qed.

Lemma signDocument_again_witness :
  issued (signDocument
            (final (signDocument readyToSign
                      (Resolved (Some (lit "/home/u/report.pdf.sig")))
                      (Resolved tt)))
            (Resolved (Some (lit "/home/u/report.pdf.sig"))) (Resolved tt))
    = [].
Proof.
  refine (proj1 (signDocument_again readyToSign
            (Resolved (Some (lit "/home/u/report.pdf.sig")))
            (Resolved (Some (lit "/home/u/report.pdf.sig")))
            (Resolved tt) (Resolved tt)
            (request readyToSign (Some (lit "/home/u/report.pdf.sig"))
               (MkSigningOptions detached)) _)).
  vm_compute. left.
Defined.

End SignViewMore.

(** ** Signing view: sessions *)

Section SignSessionFacts.
Import SignView SignSession.

Lemma signCoherent_effect (ks : list KeyInfo) (st : State) :
  signCoherent ks st → effect st = st.
Proof.
  intros (Hks & Hl & _ & _ & Hnone & Hsome). unfold effect.
  rewrite Hks, Hl. destruct ks as [|k ks]; [done |].
  destruct Hsome as (k' & _ & ->); done.
Qed.

Lemma signCoherent_mounted (listing : Settled (list KeyInfo)) :
  signCoherent (loaded listing) (final (mounted listing)).
Proof.
  destruct listing as [[|k ks]|e]; unfold signCoherent; simpl;
    repeat split; try done.
  intros _. exists k. split; [left | done].
Qed.

Lemma signCoherent_handle (ks : list KeyInfo) (st : State) (ev : Event) :
  signCoherent ks st → signCoherent ks (final (handle st ev)).
Proof.
  intros (Hks & Hl & Hsg & Hdoc & Hnone & Hsome).
  destruct ev as [picked|i|text|saved reply]; simpl.
  - destruct (selectDocument_outcome st picked)
      as (Ek & Es & _ & El & Esg & _ & _ & Hkeep).
    unfold signCoherent. rewrite Ek, Es, El, Esg. auto 10.
  - destruct (keys st !! i) as [key|] eqn:Hi; simpl; [| done].
    unfold signCoherent. simpl. repeat split; try done.
    + intros ->. by rewrite Hks in Hi.
    + intros _. exists key. split; [| done].
      rewrite <- Hks. by eapply list_elem_of_lookup_2.
  - done.
  - unfold signDocument.
    destruct (negb (truthy_opt (documentPath st))
              || negb (truthy_opt (selectedKeyId st))); [done |].
    destruct (negb (truthy (password st))); [done |].
    destruct saved as [outputPath|e]; [| done].
    destruct (negb (truthy_opt outputPath)); [done |].
    by destruct reply.
Qed.

Lemma signCoherent_run (ks : list KeyInfo) (events : list Event) (st : State) :
  signCoherent ks st → signCoherent ks (final (run st events)).
Proof.
  revert st. induction events as [|ev later IH]; intros st Hst; [done |].
  simpl. apply IH.
  rewrite (signCoherent_effect ks); by apply signCoherent_handle.
Qed.



(** X5: whatever the user does in a session of the signing view, the
    view ends with the key list it loaded when mounted (none if loading
    failed), with loading and signing over, with a document path that is
    [null] or non-empty, and with a listed key selected exactly when the
    list is not empty. *)
Theorem sign_session_state (listing : Settled (list KeyInfo))
    (events : list Event) :
  let st := final (session listing events) in
  keys st = loaded listing
  ∧ loadingKeys st = false
  ∧ signing st = false
  ∧ documentPath st ≠ Some []
  ∧ (loaded listing = [] → selectedKeyId st = None)
  ∧ (loaded listing ≠ [] →
     ∃ k, k ∈ loaded listing ∧ selectedKeyId st = Some (keyId k)).
Proof.
  apply (signCoherent_run (loaded listing) events), signCoherent_mounted.
Qed.

Lemma sign_session_state_witness :
  ∃ k, k ∈ [sampleKeyInfo; otherKeyInfo]
       ∧ selectedKeyId
           (final (session (Resolved [sampleKeyInfo; otherKeyInfo])
                     [ChooseKey 1; ChooseKey 5]))
         = Some (keyId k).
Proof.
  apply (sign_session_state (Resolved [sampleKeyInfo; otherKeyInfo])
           [ChooseKey 1; ChooseKey 5]).
  discriminate.
Defined.






End SignSessionFacts.

(** ** Verification view *)

Section VerifyViewMore.
Import VerifyView VerifySession.

(** X8: choosing a file of one kind leaves the other path, the keys and
    the selection alone and always discards the verification result; a
    chosen path is stored, a cancelled dialog resets the path to [null],
    and a failing dialog keeps the path and reports the failure with the
    kind of file in the message. *)
Theorem selectFile_outcome (st : State) (type : FileKind)
    (picked : Settled (option jsstring)) :
  let after := selectFile st type picked in
  keys after = keys st
  ∧ selectedKeyId after = selectedKeyId st
  ∧ loadingKeys after = loadingKeys st
  ∧ verifying after = verifying st
  ∧ verificationResult after = None
  ∧ pathOf (otherKind type) after = pathOf (otherKind type) st
  ∧ match picked with
    | Resolved (Some (c :: path)) =>
        pathOf type after = Some (c :: path) ∧ error after = None
    | Resolved _ => pathOf type after = None ∧ error after = None
    | Rejected e =>
        pathOf type after = pathOf type st
        ∧ error after
          = Some (lit "Failed select " ++ lit (kindLiteral type) ++ lit ": "
                  ++ describe e)
    end
  ∧ (pathOf type st ≠ Some [] → pathOf type after ≠ Some []).
Proof.
  destruct type, picked as [[[|c path]|]|e]; simpl; repeat split; done.
Qed.

Lemma selectFile_outcome_witness :
  signaturePath (selectFile readyToVerify signature (Resolved None)) = None
  ∧ documentPath (selectFile readyToVerify signature (Resolved None))
    = documentPath readyToVerify
  ∧ pathOf document (selectFile readyToVerify document (Resolved None))
    ≠ Some [].
Proof.
  destruct (selectFile_outcome readyToVerify signature (Resolved None))
    as (_ & _ & _ & _ & _ & Hother & [Hpath _] & _).
  split; [exact Hpath | split; [exact Hother |]].
  apply (selectFile_outcome readyToVerify document (Resolved None)).
  discriminate.
Defined.

(** X9: after every run of the verify handler the template shows either
    the error alert or the result panel, never both and never neither;
    it is the result panel exactly when the back end was invoked and
    answered with a result. *)
Theorem verify_shows_one (st : State) (reply : Settled VerificationResult) :
  let after := final (verify st reply) in
  showsError after = negb (showsResult after)
  ∧ (showsResult after = true
     ↔ issued (verify st reply) ≠ [] ∧ ∃ result, reply = Resolved result).
Proof.
  unfold verify, showsError, showsResult.
  destruct (negb (truthy_opt (documentPath st))
            || negb (truthy_opt (signaturePath st))
            || negb (truthy_opt (selectedKeyId st))); simpl.
  - split; [done |]. split; [done | by intros [? _]].
  - destruct reply as [result|e]; simpl.
    + split; [done |]. split; [by eauto | done].
    + split; [done |]. split; [done | by intros [_ [? ?]]].
Qed.

Lemma verify_shows_one_witness :
  showsResult (final (verify readyToVerify (Resolved badSignature))) = true
  ∧ showsError (final (verify readyToVerify (Resolved badSignature))) = false.
Proof.
  destruct (verify_shows_one readyToVerify (Resolved badSignature))
    as [Hxor Hres].
  assert (Hshown : showsResult
                     (final (verify readyToVerify (Resolved badSignature)))
                   = true).
  { apply Hres. split; [discriminate | by eexists]. }
  split; [exact Hshown |]. rewrite Hxor, Hshown. reflexivity.
Defined.

Lemma verifyCoherent_effect (ks : list KeyInfo) (st : State) :
  verifyCoherent ks st → effect st = st.
Proof.
  intros (Hks & Hl & _ & _ & _ & Hnone & Hsome).
  destruct st as [ks' sel doc sg l v e r]. simpl in *. subst ks' l.
  unfold effect. simpl. destruct ks as [|k ks].
  - by rewrite Hnone.
  - destruct Hsome as (k' & _ & ->); done.
Qed.

Lemma verifyCoherent_mounted (listing : Settled (list KeyInfo)) :
  verifyCoherent (SignSession.loaded listing) (final (mounted listing)).
Proof.
  destruct listing as [[|k ks]|e]; unfold verifyCoherent; simpl;
    repeat split; try done.
  intros _. exists k. split; [left | done].
Qed.

Lemma verifyCoherent_handle (ks : list KeyInfo) (st : State) (ev : Event) :
  verifyCoherent ks st → verifyCoherent ks (final (handle st ev)).
Proof.
  intros (Hks & Hl & Hv & Hdoc & Hsig & Hnone & Hsome).
  destruct ev as [type picked|i|reply]; simpl.
  - destruct (selectFile_outcome st type picked)
      as (Ek & Es & El & Ev & _ & Hother & _ & Hkeep).
    unfold verifyCoherent. rewrite Ek, Es, El, Ev.
    destruct type; simpl in *; rewrite ?Hother; auto 10.
  - destruct (keys st !! i) as [key|] eqn:Hi; simpl; [| done].
    unfold verifyCoherent. simpl. repeat split; try done.
    + intros ->. by rewrite Hks in Hi.
    + intros _. exists key. split; [| done].
      rewrite <- Hks. by eapply list_elem_of_lookup_2.
  - unfold verify.
    destruct (negb (truthy_opt (documentPath st))
              || negb (truthy_opt (signaturePath st))
              || negb (truthy_opt (selectedKeyId st))); [done |].
    by destruct reply.
Qed.

Lemma verifyCoherent_issued (ks : list KeyInfo) (st : State) (ev : Event)
    (inv : Invocation) :
  verifyCoherent ks st → inv ∈ issued (handle st ev) → verifiesListedKey ks inv.
Proof.
  intros (Hks & _ & _ & _ & _ & Hnone & Hsome).
  destruct ev as [type picked|i|reply]; simpl;
    [by intros ?%elem_of_nil | |].
  { destruct (keys st !! i); by intros ?%elem_of_nil. }
  intros (Hd & Hs & Hk & ->)%verify_issued.
  apply truthy_opt_true in Hd as (doc & Hd & ?).
  apply truthy_opt_true in Hs as (sig & Hs & ?).
  apply truthy_opt_true in Hk as (key & Hk & ?).
  split; [done |].
  destruct ks as [|k0 ks]; [by rewrite Hnone in Hk |].
  destruct Hsome as (k & Hin & Hsel); [done |].
  rewrite Hsel in Hk. injection Hk as <-.
  exists k, doc, sig. unfold request. simpl. rewrite Hd, Hs, Hsel. done.
Qed.

Lemma resultCurrent_handle (st : State) (ev : Event) (sent : list Invocation) :
  resultCurrent st sent →
  resultCurrent (final (handle st ev)) (sent ++ issued (handle st ev)).
Proof.
  intros Hcur. destruct ev as [type picked|i|reply]; simpl.
  - intros Hres. exfalso.
    rewrite (proj1 (proj2 (proj2 (proj2 (proj2
               (selectFile_outcome st type picked)))))) in Hres.
    by destruct Hres.
  - destruct (keys st !! i); simpl; by rewrite app_nil_r.
  - unfold verify.
    destruct (negb (truthy_opt (documentPath st))
              || negb (truthy_opt (signaturePath st))
              || negb (truthy_opt (selectedKeyId st))); simpl.
    + by intros [? ?].
    + destruct reply as [result|e]; simpl; [| by intros [? ?]].
      intros _. eexists. rewrite last_snoc. done.
Qed.

Lemma resultCurrent_mounted (listing : Settled (list KeyInfo)) :
  resultCurrent (final (mounted listing)) (issued (mounted listing)).
Proof.
  intros Hres. exfalso.
  destruct listing as [[|k ks]|e]; simpl in Hres; by destruct Hres.
Qed.

Lemma verify_run_invariants (ks : list KeyInfo) (events : list Event)
    (st : State) (sent : list Invocation) :
  verifyCoherent ks st →
  resultCurrent st sent →
  verifyCoherent ks (final (run st events))
  ∧ resultCurrent (final (run st events)) (sent ++ issued (run st events))
  ∧ ∀ inv, inv ∈ issued (run st events) → verifiesListedKey ks inv.
Proof.
  revert st sent. induction events as [|ev later IH]; intros st sent Hst Hcur.
  { simpl. rewrite app_nil_r. split; [done | split; [done |]].
    by intros ? ?%elem_of_nil. }
  simpl.
  pose proof (verifyCoherent_handle ks st ev Hst) as Hst'.
  rewrite (verifyCoherent_effect ks) by done.
  destruct (IH (final (handle st ev)) (sent ++ issued (handle st ev)) Hst'
              (resultCurrent_handle st ev sent Hcur)) as (H1 & H2 & H3).
  split; [exact H1 |]. split; [by rewrite app_assoc |].
  intros inv [Hin | Hin]%elem_of_app; [| by apply H3].
  exact (verifyCoherent_issued ks st ev inv Hst Hin).
Qed.

(** X10: whatever the user does in a session of the verification view,
    the view ends with the key list it loaded when mounted, with loading
    and verifying over, with paths that are [null] or non-empty, and
    with a listed key selected exactly when the list is not empty; it
    sends [list_keys] once, first, and after that only complete
    [verify_signature] requests naming a key of that list. *)
Theorem verify_session_coherent (listing : Settled (list KeyInfo))
    (events : list Event) :
  verifyCoherent (SignSession.loaded listing) (final (session listing events))
  ∧ ∃ verifications,
      issued (session listing events)
        = MkInvocation "list_keys" [] :: verifications
      ∧ ∀ inv, inv ∈ verifications →
               verifiesListedKey (SignSession.loaded listing) inv.
Proof.
  destruct (verify_run_invariants (SignSession.loaded listing) events
              (final (mounted listing)) (issued (mounted listing)))
    as (Hst & _ & Hreq).
  - apply verifyCoherent_mounted.
  - apply resultCurrent_mounted.
  - split; [exact Hst |]. eexists. split; [reflexivity | exact Hreq].
Qed.

Lemma verify_session_coherent_witness :
  verifiesListedKey [sampleKeyInfo]
    (MkInvocation "verify_signature"
       [ ("documentPath", JsString (lit "/tmp/a.txt"));
         ("signaturePath", JsString (lit "/tmp/a.sig"));
         ("keyId", JsString (keyId sampleKeyInfo)) ]).
Proof.
  destruct (verify_session_coherent (Resolved [sampleKeyInfo])
              [PickFile document (Resolved (Some (lit "/tmp/a.txt")));
               PickFile signature (Resolved (Some (lit "/tmp/a.sig")));
               Submit (Resolved badSignature)])
    as (_ & rest & Hrest & Hall).
  apply Hall. injection Hrest as <-. vm_compute. left.
Defined.



(** The result survives a change of key: after verifying with the first
    key and choosing the second, the old result is still shown. *)
Example result_survives_key_change :
  let st := final (session (Resolved [sampleKeyInfo; otherKeyInfo])
                     [PickFile document (Resolved (Some (lit "/tmp/a.txt")));
                      PickFile signature (Resolved (Some (lit "/tmp/a.sig")));
                      Submit (Resolved badSignature); ChooseKey 1]) in
  selectedKeyId st = Some (keyId otherKeyInfo)
  ∧ verificationResult st = Some badSignature.
Proof. split; reflexivity. Qed.

(** Without a key listed no key is selected. *)
Lemma verify_visited_selection (listing : Settled (list KeyInfo))
    (events : list Event) (st : State) :
  st ∈ visited listing events →
  keys st = [] → truthy_opt (selectedKeyId st) = false.
Proof.
  assert (Hidle : ∀ ks s, verifyCoherent ks s →
                          keys s = [] → truthy_opt (selectedKeyId s) = false).
  { intros ks s (Hks & _ & _ & _ & _ & Hnone & _) Hk.
    rewrite Hnone; [done | congruence]. }
  assert (Hfrom : ∀ evs s ks, verifyCoherent ks s →
                    ∀ s', s' ∈ visitedFrom s evs →
                          keys s' = [] → truthy_opt (selectedKeyId s') = false).
  { induction evs as [|ev later IH]; intros s ks Hs s';
      [by intros ?%elem_of_nil |].
    pose proof (verifyCoherent_handle ks s ev Hs) as Hs'.
    cbn [visitedFrom]. unfold step. cbn [final].
    rewrite (verifyCoherent_effect ks) by done.
    intros [Hin | [-> | Hin]%elem_of_cons]%elem_of_app.
    - destruct ev as [type picked|i|reply]; cbn [awaiting] in Hin;
        try (by apply elem_of_nil in Hin).
      + apply list_elem_of_singleton in Hin as ->. apply (Hidle ks s Hs).
      + destruct (negb (truthy_opt (documentPath s))
                  || negb (truthy_opt (signaturePath s))
                  || negb (truthy_opt (selectedKeyId s)));
          [by apply elem_of_nil in Hin |].
        apply list_elem_of_singleton in Hin as ->. apply (Hidle ks s Hs).
    - by apply (Hidle ks).
    - by apply (IH _ ks Hs'). }
  unfold visited.
  intros [-> | [-> | [-> | Hin]%elem_of_cons]%elem_of_cons]%elem_of_cons;
    [done | done | |].
  - apply (Hidle _ _ (verifyCoherent_mounted listing)).
  - by apply (Hfrom events _ _ (verifyCoherent_mounted listing)).
Qed.

(** X12: in every state of a session of the verification view, the
    states in which a handler waits included, the submit button is
    enabled exactly when nothing is being verified or loaded and a
    document, a signature and a key are selected: its
    [keys.length === 0] condition never decides.  A submission through
    the enabled button sends exactly one request. *)
Theorem verify_button_matches_guard (listing : Settled (list KeyInfo))
    (events : list Event) (st : State) :
  st ∈ visited listing events →
  submitDisabled st
    = verifying st || loadingKeys st
      || negb (truthy_opt (documentPath st))
      || negb (truthy_opt (signaturePath st))
      || negb (truthy_opt (selectedKeyId st))
  ∧ (∀ reply, submitDisabled st = false → issued (verify st reply) = [request st]).
Proof.
  intros Hvisited.
  pose proof (verify_visited_selection listing events st Hvisited) as Hsel.
  assert (Hbutton : submitDisabled st
                    = verifying st || loadingKeys st
                      || negb (truthy_opt (documentPath st))
                      || negb (truthy_opt (signaturePath st))
                      || negb (truthy_opt (selectedKeyId st))).
  { unfold submitDisabled. destruct (keys st) as [|k ks].
    - rewrite Hsel by done. simpl. by rewrite !orb_true_r.
    - simpl. by rewrite orb_false_r. }
  split; [exact Hbutton |].
  intros reply Hen. rewrite Hbutton in Hen.
  apply orb_false_iff in Hen as [Hen Hkey].
  apply orb_false_iff in Hen as [Hen Hsig].
  apply orb_false_iff in Hen as [_ Hdoc].
  unfold verify. rewrite Hdoc, Hsig, Hkey. by destruct reply.
Qed.

Lemma verify_button_matches_guard_witness :
  submitDisabled
    (set_verificationResult None
       (set_error None
          (set_verifying true
             (final (session (Resolved [sampleKeyInfo])
                       [PickFile document (Resolved (Some (lit "/tmp/a.txt")));
                        PickFile signature
                          (Resolved (Some (lit "/tmp/a.sig")))])))))
    = true
  ∧ issued (verify
              (final (session (Resolved [sampleKeyInfo])
                        [PickFile document (Resolved (Some (lit "/tmp/a.txt")));
                         PickFile signature
                           (Resolved (Some (lit "/tmp/a.sig")))]))
              (Resolved badSignature))
    = [request
         (final (session (Resolved [sampleKeyInfo])
                   [PickFile document (Resolved (Some (lit "/tmp/a.txt")));
                    PickFile signature (Resolved (Some (lit "/tmp/a.sig")))]))].
Proof.
  split.
  - rewrite (proj1 (verify_button_matches_guard (Resolved [sampleKeyInfo])
                      [PickFile document (Resolved (Some (lit "/tmp/a.txt")));
                       PickFile signature (Resolved (Some (lit "/tmp/a.sig")));
                       Submit (Resolved badSignature)]
                      (set_verificationResult None
                         (set_error None
                            (set_verifying true
                               (final (session (Resolved [sampleKeyInfo])
                                         [PickFile document
                                            (Resolved (Some (lit "/tmp/a.txt")));
                                          PickFile signature
                                            (Resolved (Some (lit "/tmp/a.sig")))])))))
                      ltac:(vm_compute; do 7 right; left))).
    reflexivity.
  - apply (proj2 (verify_button_matches_guard (Resolved [sampleKeyInfo])
                    [PickFile document (Resolved (Some (lit "/tmp/a.txt")));
                     PickFile signature (Resolved (Some (lit "/tmp/a.sig")))]
                    (final (session (Resolved [sampleKeyInfo])
                              [PickFile document
                                 (Resolved (Some (lit "/tmp/a.txt")));
                               PickFile signature
                                 (Resolved (Some (lit "/tmp/a.sig")))]))
                    ltac:(vm_compute; do 6 right; left))).
    reflexivity.
Defined.

End VerifyViewMore.

(** ** Key generation form: outcomes *)

Section GenerateKeyMore.
Import GenerateKey.

(** X13: the handler never changes the four fields of the form (the
    password stays also after a key was generated).  The first check
    that fails decides the message: differing passwords before a blank
    name, a blank name before an empty password.  [onGenerated] is
    called exactly when the back end was invoked and answered, once,
    with that answer; a failed invocation leaves the back end's message
    after ["Generation failed: "].  After an invocation [loading] is
    off. *)
Theorem generateKey_outcome (st : State) (reply : Settled KeyDetails) :
  let r := generateKey st reply in
  (keyName (final r) = keyName st
   ∧ selectedAlgorithm (final r) = selectedAlgorithm st
   ∧ password (final r) = password st
   ∧ confirmPassword (final r) = confirmPassword st)
  ∧ (password st ≠ confirmPassword st →
     error (final r) = Some (lit "Passwords do not match."))
  ∧ (password st = confirmPassword st → blank (keyName st) →
     error (final r) = Some (lit "Key name cannot be empty."))
  ∧ (password st = confirmPassword st → ¬ blank (keyName st) →
     password st = [] →
     error (final r) = Some (lit "Password cannot be empty."))
  ∧ (issued r = [] → generated r = [] ∧ loading (final r) = loading st)
  ∧ (issued r ≠ [] →
     issued r = [request st]
     ∧ loading (final r) = false
     ∧ match reply with
       | Resolved newKeyDetails =>
           generated r = [newKeyDetails] ∧ error (final r) = None
       | Rejected e =>
           generated r = []
           ∧ error (final r) = Some (lit "Generation failed: " ++ describe e)
       end).
Proof.
  unfold generateKey.
  case_bool_decide as Hpw; simpl.
  2: { repeat split; try done; intros; congruence. }
  destruct (truthy (trim (keyName st))) eqn:Hname; simpl.
  2: { apply truthy_false, trim_nil in Hname.
       repeat split; try done; intros; congruence. }
  apply truthy_true in Hname. rewrite trim_nil in Hname.
  destruct (truthy (password st)) eqn:Hp; simpl.
  2: { repeat split; try done; intros; congruence. }
  apply truthy_true in Hp.
  destruct reply; simpl; repeat split; try done; intros; congruence.
Qed.

Lemma generateKey_outcome_witness :
  error (final (generateKey
                  (MkState [] Ed25519 (lit "a") (lit "b") false None)
                  (Resolved sampleDetails)))
    = Some (lit "Passwords do not match.")
  ∧ generated (generateKey filledForm (Resolved sampleDetails))
    = [sampleDetails].
Proof.
  split.
  - apply (generateKey_outcome
             (MkState [] Ed25519 (lit "a") (lit "b") false None)
             (Resolved sampleDetails)).
    discriminate.
  - destruct (generateKey_outcome filledForm (Resolved sampleDetails))
      as (_ & _ & _ & _ & _ & Hsent).
    destruct Hsent as (_ & _ & Hgen & _); [discriminate | exact Hgen].
Defined.

End GenerateKeyMore.

(** ** Key list *)

Section KeyListFacts.
Import KeyList.

(** X14: what the key list shows after a load depends on the answer
    alone, whatever was there before: the keys answered, the empty-list
    hint for an empty answer, or the failure message; it is never left
    loading.  A failed load keeps the previous list in the state, and
    every load sends exactly one [list_keys] without inputs. *)
Theorem keyList_after_load (st : State) (reply : Settled (list KeyInfo)) :
  display (final (loadKeys st reply))
    = match reply with
      | Resolved [] => ShowEmpty
      | Resolved ks => ShowKeys ks
      | Rejected e => ShowError (lit "Failed load: " ++ describe e)
      end
  ∧ keys (final (loadKeys st reply))
    = match reply with Resolved ks => ks | Rejected _ => keys st end
  ∧ issued (loadKeys st reply) = [MkInvocation "list_keys" []].
Proof.
  destruct reply as [[|k ks]|e]; repeat split; reflexivity.
Qed.

Lemma keyList_after_load_witness :
  display (final (loadKeys (final (loadKeys init (Rejected (ThrownValue []))))
                    (Resolved [sampleKeyInfo])))
    = ShowKeys [sampleKeyInfo].
Proof.
  exact (proj1 (keyList_after_load
                  (final (loadKeys init (Rejected (ThrownValue []))))
                  (Resolved [sampleKeyInfo]))).
Defined.

End KeyListFacts.

(** ** Key details view *)

Section KeyDetailsViewFacts.
Import KeyDetailsView.

(** X15: when the effect of the details view is done, loading is off and
    exactly one of the details and the error message is set, so the
    template shows the details or the error, never the loading line or
    the fallback text; details are shown only for the answer of the
    back end to a request with the given key identifier, and without a
    key identifier nothing is requested. *)
Theorem details_effect_outcome (keyId : option jsstring) (st : State)
    (reply : Settled (option KeyDetails)) :
  let r := effect keyId st reply in
  loading (final r) = false
  ∧ (keyDetails (final r) = None ↔ is_Some (error (final r)))
  ∧ issued r = (if truthy_opt keyId then [request keyId] else [])
  ∧ match display (final r) with
    | ShowDetails details =>
        reply = Resolved (Some details)
        ∧ truthy_opt keyId = true
        ∧ last (titles r) = Some (lit "Key Details: " ++ name (info details))
    | ShowError message =>
        error (final r) = Some message
        ∧ ∃ title, last (titles r) = Some title
                   ∧ title ∈ [lit "Key Details"; lit "Key Details Error";
                              lit "Key Loading Error"]
    | ShowLoading | ShowFallback => False
    end.
Proof.
  unfold effect. destruct (truthy_opt keyId); simpl.
  - destruct reply as [[details|]|e]; simpl; repeat split;
      try done; try (by intros [? ?]); try (by eexists);
      eexists; (split; [done |]); by repeat constructor.
  - repeat split; try done; try (by eexists).
    eexists. split; [done |]. by repeat constructor.
Qed.

(** X16: a click on the copy button writes the public key of the shown
    details to the clipboard, once and unchanged, and starts one timer;
    with an empty key or no details shown it does nothing at all.  It
    never touches the details, the error or the loading flag, and once
    the timer has run the button text is the initial one again. *)
Theorem clickCopy_outcome (st : State) (outcome : Settled unit) :
  let c := clickCopy st outcome in
  keyDetails (copied c) = keyDetails st
  ∧ loading (copied c) = loading st
  ∧ error (copied c) = error st
  ∧ timeout (copied c) = timeout st
  ∧ match display st with
    | ShowDetails details =>
        if truthy (publicKeyPem details)
        then written c = [publicKeyPem details] ∧ timers c = 1
             ∧ copyButtonText (copied c)
               = match outcome with
                 | Resolved _ => lit "Copied!"
                 | Rejected _ => lit "Copy Failed"
                 end
        else written c = [] ∧ timers c = 0 ∧ copied c = st
    | _ => written c = [] ∧ timers c = 0 ∧ copied c = st
    end.
Proof.
  unfold clickCopy. destruct (display st) as [|m|details|]; try done.
  unfold copyToClipboard. destruct (truthy (publicKeyPem details)); [| done].
  by destruct outcome.
Qed.

Lemma details_effect_outcome_witness :
  display (final (effect (Some (keyId sampleKeyInfo)) init
                    (Resolved (Some sampleDetails))))
    = ShowDetails sampleDetails
  ∧ is_Some (error (final (effect None detailsLoaded
                             (Resolved (Some sampleDetails))))).
Proof.
  split; [reflexivity |].
  apply (details_effect_outcome None detailsLoaded
           (Resolved (Some sampleDetails))).
  reflexivity.
Defined.

End KeyDetailsViewFacts.

(** ** Page navigation *)

Section PageFacts.
Import Page.

Lemma detailsHasKey_step (st : State) (ev : Event) :
  detailsHasKey st → detailsHasKey (step st ev).
Proof.
  intros Hst. unfold step. destruct (offered st ev); [| exact Hst].
  destruct ev; unfold detailsHasKey; simpl; split; try done;
    by intros [? ?].
Qed.

Lemma run_invariant (P : State → Prop) (events : list Event) (st : State) :
  (∀ st ev, ev ∈ events → P st → P (step st ev)) →
  P st → P (run st events).
Proof.
  revert st. induction events as [|ev later IH]; intros st Hstep Hst; [done |].
  simpl. apply IH.
  - intros st' ev' Hin. apply Hstep. by right.
  - apply Hstep; [by left | done].
Qed.

(** X17: however the page is navigated, it holds a selected key
    identifier exactly when the current view is the details view. *)
Theorem page_details_has_key (title : jsstring) (events : list Event) :
  currentView (run (init title) events) = vDetails
  ↔ is_Some (selectedKeyId (run (init title) events)).
Proof.
  apply (run_invariant detailsHasKey).
  - intros st ev _. apply detailsHasKey_step.
  - split; [done | by intros [? ?]].
Qed.

Lemma page_details_has_key_witness :
  is_Some (selectedKeyId
             (run (init []) [OnViewDetails (keyId sampleKeyInfo)])).
Proof.
  by apply (page_details_has_key [] [OnViewDetails (keyId sampleKeyInfo)]).
Defined.

(** X18: as long as every key identifier handed to the page is non-empty,
    the page always mounts one of its five components, and the
    navigation button that is lit is the one of the mounted component:
    Manage Keys for the list, the generation form and the details, and
    no two buttons are lit together. *)
Theorem page_always_shows_a_view (title : jsstring) (events : list Event) :
  keysNamed events → navigationMatches (run (init title) events).
Proof.
  intros Hnamed.
  apply (run_invariant navigationMatches); [| done].
  intros st ev Hin Hst. unfold step.
  destruct (offered st ev); [| exact Hst].
  destruct ev as [| | | |id|details| |]; try done.
  - specialize (Hnamed _ id Hin eq_refl).
    unfold navigationMatches, content. simpl.
    apply truthy_true in Hnamed. by rewrite Hnamed.
  - specialize (Hnamed _ (keyId (info details)) Hin eq_refl).
    unfold navigationMatches, content. simpl.
    apply truthy_true in Hnamed. by rewrite Hnamed.
Qed.

Lemma page_always_shows_a_view_witness :
  navigationMatches
    (run (init []) [OnGenerate; OnGenerated sampleDetails; OnBack; ClickSign]).
Proof.
  apply page_always_shows_a_view.
  intros ev id Hin Hid.
  repeat (apply elem_of_cons in Hin as [-> | Hin];
          [simpl in Hid; first [discriminate | by injection Hid as <-] |]).
  by apply elem_of_nil in Hin.
Defined.

(** With an empty key identifier the page mounts nothing. *)
Example page_blank_on_empty_key :
  content (run (init []) [OnViewDetails []]) = None.
Proof. reflexivity. Qed.

(** X19: when the generation form reports a new key, the handler was
    invoked and the back end answered with it; the page, in the
    generation view, then turns to the details view titled "Key
    Details" for the key identifier of that answer (to nothing if the
    identifier is empty), and the details view's effect requests
    [get_key_details] with exactly that identifier. *)
Theorem generated_key_is_shown (form : GenerateKey.State)
    (reply : Settled KeyDetails) (page : State) (details : KeyDetails)
    (view : KeyDetailsView.State) (answer : Settled (option KeyDetails)) :
  details ∈ GenerateKey.generated (GenerateKey.generateKey form reply) →
  content page = Some MountGenerateKey →
  let page' := step page (OnGenerated details) in
  reply = Resolved details
  ∧ currentView page' = vDetails
  ∧ selectedKeyId page' = Some (keyId (info details))
  ∧ navTitle page' = lit "Key Details"
  ∧ content page'
    = (if truthy (keyId (info details))
       then Some (MountKeyDetailsView (Some (keyId (info details))))
       else None)
  ∧ (keyId (info details) ≠ [] →
     KeyDetailsView.issued
       (KeyDetailsView.effect (selectedKeyId page') view answer)
     = [MkInvocation "get_key_details"
          [("keyId", JsString (keyId (info details)))]]).
Proof.
  intros Hgen Hmounted. unfold step, offered. rewrite Hmounted. simpl.
  split.
  { destruct (generateKey_outcome form reply) as (_ & _ & _ & _ & Hnone & Hsent).
    destruct (GenerateKey.issued (GenerateKey.generateKey form reply)) eqn:Hi.
    - destruct Hnone as [Hnone _]; [done |]. rewrite Hnone in Hgen.
      by apply elem_of_nil in Hgen.
    - destruct Hsent as (_ & _ & Hreply); [done |].
      destruct reply as [d|e].
      + destruct Hreply as [Hd _]. rewrite Hd in Hgen.
        by apply list_elem_of_singleton in Hgen as ->.
      + destruct Hreply as [Hd _]. rewrite Hd in Hgen.
        by apply elem_of_nil in Hgen. }
  repeat split; try done.
  intros Hid. unfold KeyDetailsView.effect. simpl.
  apply truthy_true in Hid. rewrite Hid. simpl.
  by destruct answer as [[d|]|e].
Qed.

Lemma generated_key_is_shown_witness :
  content (step generating (OnGenerated sampleDetails))
    = Some (MountKeyDetailsView (Some (keyId sampleKeyInfo))).
Proof.
  refine (proj1 (proj2 (proj2 (proj2 (proj2
    (generated_key_is_shown filledForm (Resolved sampleDetails) generating
       sampleDetails KeyDetailsView.init (Resolved (Some sampleDetails))
       _ _)))))).
  - vm_compute. left.
  - reflexivity.
Defined.

End PageFacts.

(** ** The derived binding on an object *)

Section SharedMore.
Import Shared.

(** X20: run on a remembered object, the function throws a [TypeError]
    exactly when the key list is not empty, is longer than the
    remembered index, and has no element at that index, which is the
    case for an index that is negative, fractional, [NaN] or
    [-Infinity]; it returns [null] when the list is empty, not longer
    than the index, or lists another key identifier at the index; and
    otherwise it returns an object with the same index holding the key
    now listed there. *)
Theorem lastSelectedKey_on_object (cur : Selection) (keys : list KeyInfo) :
  (lastSelectedKey (Object cur) keys = TypeError
   ↔ keys ≠ [] ∧ lengthAtMost (length keys) (index cur) = false
     ∧ match index cur with
       | Integer z => (z < 0)%Z
       | Fraction _ | NaN | NegInfinity => True
       | PosInfinity => False
       end)
  ∧ match lastSelectedKey (Object cur) keys with
    | TypeError => element keys (index cur) = None
    | Normal Null =>
        keys = [] ∨ lengthAtMost (length keys) (index cur) = true
        ∨ ∃ k, element keys (index cur) = Some k ∧ keyId k ≠ keyId (info cur)
    | Normal (Object o) =>
        index o = index cur
        ∧ element keys (index cur) = Some (info o)
        ∧ keyId (info o) = keyId (info cur)
    | Normal Undefined => False
    end.
Proof.
  unfold lastSelectedKey.
  case_bool_decide as Hlen; simpl.
  { apply length_zero_iff_nil in Hlen as ->.
    split; [split; [done | by intros [? _]] | by left]. }
  assert (Hne : keys ≠ []) by (by intros ->).
  destruct (lengthAtMost (length keys) (index cur)) eqn:Hidx; simpl.
  { split; [split; [done | by intros (_ & ? & _)] | right; by left]. }
  destruct (element keys (index cur)) as [k|] eqn:Hk.
  - assert (Hint : ∃ z, index cur = Integer z ∧ (0 ≤ z)%Z).
    { unfold element in Hk. destruct (index cur) as [z| | | |]; try done.
      case_bool_decide; [by eexists | done]. }
    destruct Hint as (z & Hz & Hnonneg).
    case_bool_decide as Hid; simpl.
    + split; [| done]. split; [done |]. rewrite Hz. intros (_ & _ & ?). lia.
    + split.
      * split; [done |]. rewrite Hz. intros (_ & _ & ?). lia.
      * right. right. by exists k.
  - split; [| done]. split; [| done]. intros _.
    split; [done |]. split; [done |].
    unfold element in Hk. unfold lengthAtMost in Hidx.
    destruct (index cur) as [z| | | |]; try done.
    case_bool_decide as Hnonneg; [| lia].
    apply lookup_ge_None in Hk. apply bool_decide_eq_false in Hidx. lia.
Qed.

Lemma lastSelectedKey_on_object_witness :
  lastSelectedKey (Object (MkSelection NaN sampleKeyInfo)) [sampleKeyInfo]
    = TypeError
  ∧ lastSelectedKey (Object (MkSelection (Integer (-1)) sampleKeyInfo))
                    [sampleKeyInfo]
    = TypeError.
Proof.
  split.
  - by apply (proj1 (lastSelectedKey_on_object
                       (MkSelection NaN sampleKeyInfo) [sampleKeyInfo])).
  - by apply (proj1 (lastSelectedKey_on_object
                       (MkSelection (Integer (-1)) sampleKeyInfo)
                       [sampleKeyInfo])).
Defined.

End SharedMore.
